(** * UpstreamStreamlit.py: feed parser, keyword store, relevance classifier,
      summary generator and result ordering

    A shallow embedding of [src/UpstreamStreamlit.py].  Python [str] values
    are modelled by [string] (the ASCII fragment: one character per code
    point below 128, where [str.lower], [str.strip], [\d] and [\w] have the
    behaviour written out below).  The Streamlit session state is an
    explicit record threaded through the handlers of [keyword_manager].
    Two library calls are outside the repository: [ET.fromstring], whose
    result (an element tree or a [ParseError]) is the input of the parser
    model, and [DataFrame.sort_values], modelled by its documented contract
    for the default [kind='quicksort']. *)

From Stdlib Require Import List Arith Bool Lia Ascii String Permutation Sorted.
Import ListNotations.
Set Warnings "-register-all".
Open Scope string_scope.
Open Scope list_scope.
Open Scope nat_scope.

Infix "+++" := String.append (at level 60, right associativity).

(* ================================================================= *)
(** ** Python string operations used by the source *)

Definition in_range (lo hi : nat) (c : ascii) : bool :=
  let n := nat_of_ascii c in (lo <=? n) && (n <=? hi).

Definition is_upper (c : ascii) : bool := in_range 65 90 c.
Definition is_lower (c : ascii) : bool := in_range 97 122 c.
Definition is_alpha (c : ascii) : bool := is_upper c || is_lower c.

(** [\d] on ASCII text. *)
Definition is_digit (c : ascii) : bool := in_range 48 57 c.

(** [\w] on ASCII text: letters, digits and the underscore. *)
Definition is_word (c : ascii) : bool :=
  is_alpha c || is_digit c || Ascii.eqb c "_"%char.

(** [str.isspace] on ASCII text: TAB..CR, FS..US and the space. *)
Definition is_space (c : ascii) : bool := in_range 9 13 c || in_range 28 32 c.

(** The characters of the class [[.!?]] and of the tuple [('.', '!', '?')]. *)
Definition is_terminal (c : ascii) : bool :=
  Ascii.eqb c "."%char || Ascii.eqb c "!"%char || Ascii.eqb c "?"%char.

Definition lower_char (c : ascii) : ascii :=
  if is_upper c then ascii_of_nat (nat_of_ascii c + 32) else c.

(** [s.lower()] *)
Fixpoint lower (s : string) : string :=
  match s with
  | EmptyString => EmptyString
  | String c r => String (lower_char c) (lower r)
  end.

Fixpoint lstrip (s : string) : string :=
  match s with
  | EmptyString => EmptyString
  | String c r => if is_space c then lstrip r else s
  end.

Fixpoint rstrip (s : string) : string :=
  match s with
  | EmptyString => EmptyString
  | String c r =>
      match rstrip r with
      | EmptyString => if is_space c then EmptyString else String c EmptyString
      | r' => String c r'
      end
  end.

(** [s.strip()] *)
Definition strip (s : string) : string := rstrip (lstrip s).

(** [sub in s] *)
Fixpoint contains (sub s : string) : bool :=
  prefix sub s ||
  match s with
  | EmptyString => false
  | String _ r => contains sub r
  end.

Fixpoint last_char (s : string) : option ascii :=
  match s with
  | EmptyString => None
  | String c EmptyString => Some c
  | String _ r => last_char r
  end.

(** [s.endswith(('.', '!', '?'))] *)
Definition endswith_terminal (s : string) : bool :=
  match last_char s with
  | Some c => is_terminal c
  | None => false
  end.

(** [all(p(c) for c in s)] *)
Fixpoint all_chars (p : ascii -> bool) (s : string) : bool :=
  match s with
  | EmptyString => true
  | String c r => p c && all_chars p r
  end.

(** Truthiness of a [str]. *)
Definition truthy (s : string) : bool :=
  match s with
  | EmptyString => false
  | String _ _ => true
  end.

(** [x or ''] for a [str] value [x]. *)
Definition or_empty (x : string) : string := if truthy x then x else "".

(** [s[:n]] *)
Definition slice_to (n : nat) (s : string) : string := substring 0 n s.

(** [sum(...)] over a list of integers. *)
Definition py_sum (l : list nat) : nat := fold_left Nat.add l 0.

(** [l.remove(x)] on a list that contains [x]: the first equal item goes. *)
Fixpoint remove_first (x : string) (l : list string) : list string :=
  match l with
  | [] => []
  | y :: r => if String.eqb y x then r else y :: remove_first x r
  end.

(** [x in l] for a list of strings. *)
Definition mem (x : string) (l : list string) : bool := existsb (String.eqb x) l.

(* ================================================================= *)
(** ** The regular expressions of the source *)

Section DatePattern.
(** The class standing between the two spaces: [\w] in the source. *)
Variable mid : ascii -> bool.

(** [ ccc dddd] at the head of [s]: what follows the day digits. *)
Definition match_tail (s : string) : bool :=
  match s with
  | String s1 (String w1 (String w2 (String w3 (String s2
      (String d1 (String d2 (String d3 (String d4 _)))))))) =>
      Ascii.eqb s1 " "%char && mid w1 && mid w2 && mid w3 &&
      Ascii.eqb s2 " "%char &&
      is_digit d1 && is_digit d2 && is_digit d3 && is_digit d4
  | _ => false
  end.

(** A match of [\d{1,2} ccc \d{4}] starting at the head of [s]; the greedy
    [{1,2}] tries two digits before one. *)
Definition match_here (s : string) : option string :=
  match s with
  | String a r =>
      if is_digit a then
        match r with
        | String b r' =>
            if is_digit b && match_tail r' then Some (slice_to 11 s)
            else if match_tail r then Some (slice_to 10 s)
            else None
        | EmptyString => None
        end
      else None
  | EmptyString => None
  end.

(** [re.search]: the match at the leftmost position that has one. *)
Fixpoint search_date (s : string) : option string :=
  match match_here s with
  | Some m => Some m
  | None =>
      match s with
      | EmptyString => None
      | String _ r => search_date r
      end
  end.

(** The pattern in words: one or two digits, a space, three characters of
    the middle class, a space, four digits. *)
Definition date_token (m : string) : Prop :=
  exists day mon year,
    m = day +++ " " +++ mon +++ " " +++ year /\
    (String.length day = 1 \/ String.length day = 2) /\
    all_chars is_digit day = true /\
    String.length mon = 3 /\ all_chars mid mon = true /\
    String.length year = 4 /\ all_chars is_digit year = true.
End DatePattern.

(** [re.search(r'(\d{1,2} \w{3} \d{4})', date_str)], group 1. *)
Definition re_search_date (date_str : string) : option string :=
  search_date is_word date_str.

(** [re.split(r'[.!?]+', s)]: [cur] is the piece being read and [in_run]
    tells that the previous character belonged to a separator run. *)
Fixpoint re_split_from (cur : string) (in_run : bool) (s : string) : list string :=
  match s with
  | EmptyString => [cur]
  | String c r =>
      if is_terminal c then
        if in_run then re_split_from "" true r
        else cur :: re_split_from "" true r
      else re_split_from (cur +++ String c "") false r
  end.

Definition re_split (s : string) : list string := re_split_from "" false s.

(* ================================================================= *)
(** ** parse_rss_content *)

(** An [xml.etree.ElementTree.Element]: tag, text before the first child,
    children in document order. *)
Inductive Element : Type :=
  | Elem (tag : string) (text : option string) (children : list Element).

Definition tag (e : Element) : string := let 'Elem t _ _ := e in t.
Definition text (e : Element) : option string := let 'Elem _ x _ := e in x.
Definition children (e : Element) : list Element := let 'Elem _ _ cs := e in cs.

(** The outcome of [ET.fromstring(xml_content)]. *)
Inductive xml_result : Type :=
  | Parsed (root : Element)
  | ParseError.

(** [e.iter()]: the element, then its subtree in document order. *)
Fixpoint iter (e : Element) : list Element :=
  match e with
  | Elem _ _ cs => e :: flat_map iter cs
  end.

Definition has_tag (t : string) (e : Element) : bool := String.eqb (tag e) t.

(** [root.findall('.//t')]: every element below [root] with tag [t]. *)
Definition findall_descendants (t : string) (root : Element) : list Element :=
  filter (has_tag t) (flat_map iter (children root)).

(** [e.find(t)] and [e.findall(t)]: direct children. *)
Definition find_child (t : string) (e : Element) : option Element :=
  find (has_tag t) (children e).

Definition findall_children (t : string) (e : Element) : list Element :=
  filter (has_tag t) (children e).

(** Truthiness of [elem.text]. *)
Definition text_truthy (e : Element) : bool :=
  match text e with
  | Some s => truthy s
  | None => false
  end.

Definition text_string (e : Element) : string :=
  match text e with
  | Some s => s
  | None => ""
  end.

(** [elem.text.strip() if elem is not None and elem.text else default] *)
Definition stripped_text_or (default : string) (elem : option Element) : string :=
  match elem with
  | Some e => if text_truthy e then strip (text_string e) else default
  | None => default
  end.

Record Story : Type := mkStory {
  title : string;
  link : string;
  description : string;
  date : string;
  author : string;
  categories : string
}.

(** The publication-date block of the loop body.  Neither [re.search] nor
    the slice raises on a [str], so the [except] branch is never taken. *)
Definition extract_date (pub_date_elem : option Element) : string :=
  match pub_date_elem with
  | Some e =>
      if text_truthy e then
        let date_str := text_string e in
        match re_search_date date_str with
        | Some m => m
        | None =>
            if 10 <? String.length date_str then slice_to 10 date_str
            else date_str
        end
      else "Unknown"
  | None => "Unknown"
  end.

Definition extract_categories (item : Element) : string :=
  let cats :=
    map (fun c => strip (text_string c))
        (filter (fun c => text_truthy c && truthy (strip (text_string c)))
                (findall_children "category" item)) in
  match cats with
  | [] => ""
  | _ => String.concat ", " cats
  end.

(** One pass of the [for item in ...] body. *)
Definition story_of_item (item : Element) : Story :=
  {| title := stripped_text_or "No title" (find_child "title" item);
     link := stripped_text_or "" (find_child "link" item);
     description := stripped_text_or "" (find_child "description" item);
     date := extract_date (find_child "pubDate" item);
     author := stripped_text_or "Unknown" (find_child "author" item);
     categories := extract_categories item |}.

Definition parse_rss_content (xml_content : xml_result) : list Story :=
  match xml_content with
  | Parsed root => map story_of_item (findall_descendants "item" root)
  | ParseError => []
  end.

(* ================================================================= *)
(** ** The keyword lists of [st.session_state] *)

Definition default_high_keywords : list string :=
  [ "slb"; "schlumberger"; "halliburton"; "baker hughes"; "oilfield services";
    "drilling"; "completion"; "fracking"; "hydraulic fracturing"; "well services";
    "subsurface"; "reservoir"; "logging"; "wireline"; "coiled tubing";
    "artificial lift"; "stimulation"; "cementing"; "mud logging";
    "directional drilling"; "mwd"; "lwd"; "measurement while drilling";
    "carbon capture"; "ccs"; "ccus"; "sequestration"; "co2 injection";
    "digital oilfield"; "petrotechnical"; "geophysics"; "petrophysics" ].

Definition default_moderate_keywords : list string :=
  [ "exploration"; "production"; "upstream"; "offshore"; "deepwater";
    "unconventional"; "shale"; "tight oil"; "enhanced recovery";
    "field development"; "project sanctioning"; "final investment decision";
    "technology"; "innovation"; "digitalization"; "automation";
    "esg"; "sustainability"; "emissions"; "decarbonization";
    "lng"; "natural gas"; "oil price"; "commodity"; "energy transition" ].

Definition default_relevant_keywords : list string :=
  [ "refining"; "downstream"; "petrochemicals"; "marketing";
    "renewable"; "solar"; "wind"; "hydrogen"; "electric vehicle";
    "pipeline"; "midstream"; "transportation"; "storage" ].

(** The part of [st.session_state] the program uses.  [keywords_initialized]
    is [None] while the key is absent from the session state. *)
Record session_state : Type := mkState {
  keywords_initialized : option bool;
  high_keywords : list string;
  moderate_keywords : list string;
  relevant_keywords : list string
}.

Definition fresh_session : session_state :=
  {| keywords_initialized := None;
     high_keywords := []; moderate_keywords := []; relevant_keywords := [] |}.

(** The module-level block run at the start of every script run:
    [if 'keywords_initialized' not in st.session_state: ...]. *)
Definition initialize (st : session_state) : session_state :=
  match keywords_initialized st with
  | None =>
      {| keywords_initialized := Some true;
         high_keywords := default_high_keywords;
         moderate_keywords := default_moderate_keywords;
         relevant_keywords := default_relevant_keywords |}
  | Some _ => st
  end.

(** The state after the first script run of a session. *)
Definition default_store : session_state := initialize fresh_session.

Inductive tier : Type := high | moderate | relevant.

Definition get_tier (t : tier) (st : session_state) : list string :=
  match t with
  | high => high_keywords st
  | moderate => moderate_keywords st
  | relevant => relevant_keywords st
  end.

Definition set_tier (t : tier) (l : list string) (st : session_state) : session_state :=
  match t with
  | high =>
      {| keywords_initialized := keywords_initialized st; high_keywords := l;
         moderate_keywords := moderate_keywords st;
         relevant_keywords := relevant_keywords st |}
  | moderate =>
      {| keywords_initialized := keywords_initialized st;
         high_keywords := high_keywords st; moderate_keywords := l;
         relevant_keywords := relevant_keywords st |}
  | relevant =>
      {| keywords_initialized := keywords_initialized st;
         high_keywords := high_keywords st;
         moderate_keywords := moderate_keywords st; relevant_keywords := l |}
  end.

(** How a handler of [keyword_manager] ends: normally, or with the
    [ValueError] of [list.remove]; the session state keeps the mutations made
    before the exception. *)
Inductive outcome : Type :=
  | Done (st : session_state)
  | ValueError (st : session_state).

Definition state_of (o : outcome) : session_state :=
  match o with
  | Done st => st
  | ValueError st => st
  end.

(** The two statements under each arrow button:
    [st.session_state.<to>_keywords.append(keyword)] and then
    [st.session_state.<from>_keywords.remove(keyword)]. *)
Definition move (keyword : string) (from to : tier) (st : session_state) : outcome :=
  let st1 := set_tier to (get_tier to st ++ [keyword]) st in
  if mem keyword (get_tier from st1)
  then Done (set_tier from (remove_first keyword (get_tier from st1)) st1)
  else ValueError st1.

(** The statements under each [Add] button, with [new] the text input. *)
Definition add (t : tier) (new : string) (st : session_state) : session_state :=
  if truthy new then
    if mem (lower new) (map lower (get_tier t st)) then st
    else set_tier t (get_tier t st ++ [lower new]) st
  else st.

(** The statement under the reset button. *)
Definition reset (st : session_state) : session_state :=
  {| keywords_initialized := Some false;
     high_keywords := high_keywords st;
     moderate_keywords := moderate_keywords st;
     relevant_keywords := relevant_keywords st |}.

(** The six arrow buttons drawn for each listed keyword, by their key prefix. *)
Inductive move_button : Type :=
  | high_to_mod | high_to_rel | mod_to_high | mod_to_rel | rel_to_high | rel_to_mod.

Definition source (b : move_button) : tier :=
  match b with
  | high_to_mod | high_to_rel => high
  | mod_to_high | mod_to_rel => moderate
  | rel_to_high | rel_to_mod => relevant
  end.

Definition destination (b : move_button) : tier :=
  match b with
  | mod_to_high | rel_to_high => high
  | high_to_mod | rel_to_mod => moderate
  | high_to_rel | mod_to_rel => relevant
  end.

(** What the user can do in the sidebar: press the arrow button [b] of row
    [i], press [Add] of a tab with some text typed, press the reset button. *)
Inductive event : Type :=
  | PressMove (b : move_button) (i : nat)
  | PressAdd (t : tier) (new : string)
  | PressReset.

(** [keyword_manager] on one event.  Row [i] of a tab shows
    [keyword = <tier>_keywords[i]]; a row that is not drawn has no button. *)
Definition keyword_manager (ev : event) (st : session_state) : outcome :=
  match ev with
  | PressMove b i =>
      match nth_error (get_tier (source b) st) i with
      | Some keyword => move keyword (source b) (destination b) st
      | None => Done st
      end
  | PressAdd t new => Done (add t new st)
  | PressReset => Done (reset st)
  end.

(** One event followed by the script run it triggers ([st.rerun()]). *)
Definition step (st : session_state) (ev : event) : session_state :=
  initialize (state_of (keyword_manager ev st)).

Definition run (evs : list event) (st : session_state) : session_state :=
  fold_left step evs st.

(* ================================================================= *)
(** ** analyze_slb_relevance *)

Inductive relevance : Type := High | Moderate | Relevant | Low.

(** [text = f"{title} {description} {categories}"] *)
Definition search_text (story : Story) : string :=
  lower (or_empty (title story)) +++ " " +++
  lower (or_empty (description story)) +++ " " +++
  lower (or_empty (categories story)).

(** [sum(1 for keyword in keywords if keyword in text)] *)
Definition count_in (keywords : list string) (text : string) : nat :=
  py_sum (map (fun _ => 1) (filter (fun keyword => contains keyword text) keywords)).

Definition high_count (story : Story) (st : session_state) : nat :=
  count_in (map lower (high_keywords st)) (search_text story).
Definition moderate_count (story : Story) (st : session_state) : nat :=
  count_in (map lower (moderate_keywords st)) (search_text story).
Definition relevant_count (story : Story) (st : session_state) : nat :=
  count_in (map lower (relevant_keywords st)) (search_text story).

Definition analyze_slb_relevance (story : Story) (st : session_state) : relevance :=
  let text := search_text story in
  if (2 <=? high_count story st) || contains "slb" text || contains "schlumberger" text
  then High
  else if (1 <=? high_count story st) || (2 <=? moderate_count story st)
  then Moderate
  else if (1 <=? moderate_count story st) || (1 <=? relevant_count story st)
  then Relevant
  else Low.

(** The ladder read with counts of distinct keywords: the number of
    different lowercase keywords of the tier that occur in the text. *)
Definition distinct_in (keywords : list string) (text : string) : nat :=
  List.length (nodup string_dec (filter (fun keyword => contains keyword text) keywords)).

Definition classify_distinct (story : Story) (st : session_state) : relevance :=
  let text := search_text story in
  let hc := distinct_in (map lower (high_keywords st)) text in
  let mc := distinct_in (map lower (moderate_keywords st)) text in
  let rc := distinct_in (map lower (relevant_keywords st)) text in
  if (2 <=? hc) || contains "slb" text || contains "schlumberger" text then High
  else if (1 <=? hc) || (2 <=? mc) then Moderate
  else if (1 <=? mc) || (1 <=? rc) then Relevant
  else Low.

(* ================================================================= *)
(** ** create_editorial_summary *)

(** The [for sentence in sentences] loop with its [break]. *)
Fixpoint accumulate (sentences : list string) (char_count : nat)
    (summary_parts : list string) : list string :=
  match sentences with
  | [] => summary_parts
  | sentence :: rest =>
      if 250 <? char_count + String.length sentence then summary_parts
      else accumulate rest (char_count + String.length sentence)
                      (summary_parts ++ [strip sentence])
  end.

(** [if not summary.endswith(('.', '!', '?')): summary += '.'] *)
Definition ensure_terminal (summary : string) : string :=
  if endswith_terminal summary then summary else summary +++ ".".

(** The value of [summary] when the formatted string is built. *)
Definition summary_of (description : string) : string :=
  if 300 <? String.length description then
    ensure_terminal (String.concat ". " (accumulate (re_split description) 0 []))
  else
    ensure_terminal (strip description).

Definition create_editorial_summary (story : Story) : string :=
  summary_of (description story) +++ " | " +++ date story +++ " | Upstream".

(** Total length of a list of sentences. *)
Definition total_length (l : list string) : nat :=
  list_sum (map String.length l).

(* ================================================================= *)
(** ** main: processing and ordering *)

Record ProcessedStory : Type := mkProcessed {
  Title : string;
  Relevance : relevance;
  Editorial_Summary : string;
  Date : string;
  Author : string;
  Categories : string;
  Link : string
}.

Definition process (st : session_state) (story : Story) : ProcessedStory :=
  {| Title := title story;
     Relevance := analyze_slb_relevance story st;
     Editorial_Summary := create_editorial_summary story;
     Date := date story;
     Author := author story;
     Categories := categories story;
     Link := link story |}.

(** [stories[:max_stories]] followed by the loop filling [processed_stories]. *)
Definition processed_stories (st : session_state) (max_stories : nat)
    (stories : list Story) : list ProcessedStory :=
  map (process st) (firstn max_stories stories).

(** [relevance_order = {'High': 0, 'Moderate': 1, 'Relevant': 2, 'Low': 3}] *)
Definition relevance_order (r : relevance) : nat :=
  match r with
  | High => 0
  | Moderate => 1
  | Relevant => 2
  | Low => 3
  end.

Definition sort_order (p : ProcessedStory) : nat := relevance_order (Relevance p).

(** [df.sort_values('sort_order')] with the default [kind='quicksort']: the
    rows of [df'] are the rows of [df], in ascending order of the column.
    pandas promises the order of rows with equal keys only for
    [kind='mergesort'] and [kind='stable']. *)
Definition sort_values (df df' : list ProcessedStory) : Prop :=
  Permutation df df' /\
  StronglySorted (fun a b => sort_order a <= sort_order b) df'.

(** The sorted DataFrame [df] of [main], on which the metrics are taken and
    from which the relevance filter then selects the rows of the table;
    there is none unless [parse_rss_content] returned a non-empty list
    ([if stories:]). *)
Definition main (st : session_state) (max_stories : nat)
    (xml_content : xml_result) (df : list ProcessedStory) : Prop :=
  let stories := parse_rss_content xml_content in
  stories <> [] /\ sort_values (processed_stories st max_stories stories) df.

Definition relevance_eqb (a b : relevance) : bool :=
  relevance_order a =? relevance_order b.

(** The rows of one tier, in the order of the table. *)
Definition rows_of (r : relevance) (df : list ProcessedStory) : list ProcessedStory :=
  filter (fun p => relevance_eqb (Relevance p) r) df.

(** Ties keep document order: each tier's rows come in the order they had
    before sorting. *)
Definition ties_in_document_order (before after : list ProcessedStory) : Prop :=
  forall r, rows_of r after = rows_of r before.

(* ================================================================= *)
(** ** Notions the statements below are phrased with *)

(** The position of an element in a document: the child indices on the way
    from the root.  [subtree e p] is the element at position [p] below [e]. *)
Fixpoint subtree (e : Element) (p : list nat) : option Element :=
  match p with
  | [] => Some e
  | i :: rest =>
      match nth_error (children e) i with
      | Some c => subtree c rest
      | None => None
      end
  end.

(** Document order of positions, the order of the start tags: an element
    comes before everything below it, and before everything at or below
    its later siblings. *)
Fixpoint precedes (p q : list nat) : bool :=
  match p, q with
  | [], [] => false
  | [], _ :: _ => true
  | _ :: _, [] => false
  | i :: p', j :: q' => (i <? j) || ((i =? j) && precedes p' q')
  end.

Definition at_child (i : nat) (px : list nat * Element) : list nat * Element :=
  (i :: fst px, snd px).

(** Every element of the tree of [e] with its position. *)
Fixpoint positions (e : Element) : list (list nat * Element) :=
  match e with
  | Elem _ _ cs =>
      ([], e) ::
      (fix forest (i : nat) (l : list Element) : list (list nat * Element) :=
         match l with
         | [] => []
         | c :: r => map (at_child i) (positions c) ++ forest (S i) r
         end) 0 cs
  end.

(** The elements of the children [l], the first of which has index [i]. *)
Fixpoint forest_positions (i : nat) (l : list Element) : list (list nat * Element) :=
  match l with
  | [] => []
  | c :: r => map (at_child i) (positions c) ++ forest_positions (S i) r
  end.

Definition in_document_order (items : list (list nat * Element)) : Prop :=
  StronglySorted (fun a b => precedes (fst a) (fst b) = true) items.

(** The number of elements with tag [t] anywhere in the tree of [e]. *)
Fixpoint count_tag (t : string) (e : Element) : nat :=
  match e with
  | Elem _ _ cs =>
      (if has_tag t e then 1 else 0) + list_sum (map (count_tag t) cs)
  end.

(** [m] is the first substring of [raw] that is a date token: no token
    starts further left. *)
Definition first_match (mid : ascii -> bool) (raw m : string) : Prop :=
  exists pre post,
    raw = pre +++ m +++ post /\ date_token mid m /\
    forall pre' m' post',
      raw = pre' +++ m' +++ post' -> date_token mid m' ->
      String.length pre <= String.length pre'.

Definition no_match (mid : ascii -> bool) (raw : string) : Prop :=
  forall pre m post, raw = pre +++ m +++ post -> ~ date_token mid m.

(** The [pubDate] child is missing, or has no text, or empty text. *)
Definition pub_date_missing (item : Element) : Prop :=
  match find_child "pubDate" item with
  | None => True
  | Some e => text e = None \/ text e = Some ""
  end.

Definition all_keywords (st : session_state) : list string :=
  high_keywords st ++ moderate_keywords st ++ relevant_keywords st.

(** What the handlers keep true as long as [Add] is guarded: the script has
    initialised the lists, and no lowercase keyword is listed twice. *)
Definition store_invariant (st : session_state) : Prop :=
  keywords_initialized st <> None /\ NoDup (map lower (all_keywords st)).

(** [kw] has a case-insensitive match in tier [t]. *)
Definition in_tier_ci (kw : string) (t : tier) (st : session_state) : Prop :=
  In (lower kw) (map lower (get_tier t st)).

(** Every keyword is, case-insensitively, in at most one tier. *)
Definition one_tier_each (st : session_state) : Prop :=
  forall kw t1 t2, in_tier_ci kw t1 st -> in_tier_ci kw t2 st -> t1 = t2.

(** An [Add] press is guarded when the typed keyword has no match in the
    other two tiers; the other events are always guarded. *)
Definition guarded (st : session_state) (ev : event) : Prop :=
  match ev with
  | PressAdd t new => forall t', t' <> t -> ~ in_tier_ci new t' st
  | _ => True
  end.

Fixpoint guarded_from (st : session_state) (evs : list event) : Prop :=
  match evs with
  | [] => True
  | ev :: rest => guarded st ev /\ guarded_from (step st ev) rest
  end.

(** The number of entries of tier [t] whose lowercase form occurs in the
    search text; an entry listed twice is counted twice. *)
Definition entries_hit (t : tier) (story : Story) (st : session_state) : nat :=
  List.length (filter (fun kw => contains (lower kw) (search_text story)) (get_tier t st)).

Definition no_repeated_entry (st : session_state) : Prop :=
  forall t, NoDup (map lower (get_tier t st)).

(* ================================================================= *)
(** ** Concrete inputs used by the examples *)

(** A description of 345 characters in four sentences. *)
Definition long_description : string :=
  "SLB announced a new drilling technology for deepwater wells in the Gulf of Mexico this week. " +++
  "It will improve efficiency and lower the cost of every completion that the operator plans! " +++
  "Markets reacted positively, with analysts noting strong demand across multiple regions? " +++
  "Forecasts point to continued growth in offshore activity through the next decade.".

Definition long_story : Story :=
  mkStory "SLB Launches New Tech" "https://example.org/a" long_description
          "20 Jun 2025" "Unknown" "".

(** An item dated the usual way, one whose date text holds no letters, and
    one without a [pubDate]. *)
Definition dated_item : Element :=
  Elem "item" None
    [ Elem "title" (Some "Rig count rises") [];
      Elem "pubDate" (Some "Fri, 20 Jun 2025 18:11:59 +0200") [] ].

Definition numeric_date_item : Element :=
  Elem "item" None
    [ Elem "title" (Some "Rig count rises") [];
      Elem "pubDate" (Some "12 345 6789 x") [] ].

Definition undated_item : Element :=
  Elem "item" None [ Elem "title" (Some "Rig count rises") [] ].

(** A feed of three items, the third one nested below a grouping element
    instead of being a child of [channel]. *)
Definition sample_feed : Element :=
  Elem "rss" None
    [ Elem "channel" None
        [ Elem "title" (Some "Upstream") [];
          dated_item;
          undated_item;
          Elem "section" None [ numeric_date_item ] ] ].

(** A story whose text holds the keyword ["drilling"] once and nothing else. *)
Definition drilling_story : Story :=
  mkStory "Drilling" "https://example.org/d" "" "20 Jun 2025" "Unknown" "".

(** Typing ["drilling"] into the moderate tab, pressing [Add], then pressing
    the up arrow of the new row (row 25 of the moderate tab). *)
Definition add_then_move_up : list event :=
  [ PressAdd moderate "drilling"; PressMove mod_to_high 25 ].

(** A session that moves, adds a new keyword, resets and moves again. *)
Definition guarded_session : list event :=
  [ PressMove high_to_mod 5; PressAdd relevant "Geothermal"; PressReset;
    PressMove mod_to_rel 0; PressAdd relevant "geothermal" ].

Definition item_titled (t : string) : Element :=
  Elem "item" None [ Elem "title" (Some t) [] ].

Definition feed_of_titles (titles : list string) : xml_result :=
  Parsed (Elem "rss" None [ Elem "channel" None (map item_titled titles) ]).

(** Eighteen items that hold no keyword: all of them are classified Low. *)
Definition tied_feed : xml_result :=
  feed_of_titles
    [ "Note 01"; "Note 02"; "Note 03"; "Note 04"; "Note 05"; "Note 06";
      "Note 07"; "Note 08"; "Note 09"; "Note 10"; "Note 11"; "Note 12";
      "Note 13"; "Note 14"; "Note 15"; "Note 16"; "Note 17"; "Note 18" ].

(** Five items of four different tiers. *)
Definition mixed_feed : xml_result :=
  feed_of_titles
    [ "Hydrogen hub opens"; "SLB wins contract"; "Weather report";
      "Offshore exploration resumes"; "Shale output steady" ].

(** The rows after the first, the next fifteen in reverse: an exchange of
    rows with equal keys such as a partitioning sort performs. *)
Definition exchanged (df : list ProcessedStory) : list ProcessedStory :=
  match df with
  | [] => []
  | first :: rest => first :: rev (firstn 15 rest) ++ skipn 15 rest
  end.

(** A sort that meets the contract of [sort_values] (by insertion, from the
    right); it shows that the contract can be met for every table. *)
Fixpoint insert_row (p : ProcessedStory) (df : list ProcessedStory) : list ProcessedStory :=
  match df with
  | [] => [p]
  | q :: rest =>
      if sort_order p <=? sort_order q then p :: df else q :: insert_row p rest
  end.

Fixpoint insertion_sort (df : list ProcessedStory) : list ProcessedStory :=
  match df with
  | [] => []
  | p :: rest => insert_row p (insertion_sort rest)
  end.

(* ================================================================= *)
(** ** main and keyword_manager: what is reported and displayed *)

(** The four [st.metric] values: [len(df)] and, for High, Moderate and
    Relevant, [len(df[df['Relevance'] == ...])]. *)
Definition summary_stats (df : list ProcessedStory) : nat * nat * nat * nat :=
  (List.length df, List.length (rows_of High df),
   List.length (rows_of Moderate df), List.length (rows_of Relevant df)).

(** [df['Relevance'].isin(relevance_filter)] on one row. *)
Definition isin (relevance_filter : list relevance) (p : ProcessedStory) : bool :=
  existsb (relevance_eqb (Relevance p)) relevance_filter.

(** [filtered_df]: the rows of the selected levels, or the whole table when
    the multiselect is empty ([if relevance_filter: ... else: ...]). *)
Definition filtered_df (relevance_filter : list relevance)
    (df : list ProcessedStory) : list ProcessedStory :=
  match relevance_filter with
  | [] => df
  | _ :: _ => filter (isin relevance_filter) df
  end.

(** The three counts written at the bottom of the sidebar. *)
Definition keyword_counts (st : session_state) : nat * nat * nat :=
  (List.length (high_keywords st), List.length (moderate_keywords st),
   List.length (relevant_keywords st)).

(** The arrow buttons that move a keyword to a tier of higher rank. *)
Definition promotion (b : move_button) : bool :=
  match b with
  | mod_to_high | rel_to_high | rel_to_mod => true
  | high_to_mod | high_to_rel | mod_to_rel => false
  end.

(** The range of the [Max stories to analyze] slider. *)
Definition slider_range (max_stories : nat) : Prop :=
  10 <= max_stories <= 200.

(** What [main] puts below the metrics: the table of [filtered_df], or
    [st.info("No stories match the selected filters.")] when [filtered_df]
    is empty, or [st.error("No stories found in the RSS feed.")] when
    [parse_rss_content] returned no story. *)
Inductive screen : Type :=
  | Table (rows : list ProcessedStory)
  | NoMatch
  | NoStories.

(** [if not filtered_df.empty: ... else: st.info(...)] *)
Definition show (relevance_filter : list relevance)
    (df : list ProcessedStory) : screen :=
  match filtered_df relevance_filter df with
  | [] => NoMatch
  | row :: rows => Table (row :: rows)
  end.

(** [main] from the parsed feed to what is shown, for a selection of the
    relevance multiselect.  The rows of a shown table are those of
    [filtered_df], the ones the CSV download holds. *)
Definition main_screen (st : session_state) (max_stories : nat)
    (xml_content : xml_result) (relevance_filter : list relevance)
    (shown : screen) : Prop :=
  (parse_rss_content xml_content = [] /\ shown = NoStories) \/
  (exists df, main st max_stories xml_content df /\
              shown = show relevance_filter df).

(* ================================================================= *)
(** ** Further notions for the statements *)

(** No whitespace at either end. *)
Definition trimmed (s : string) : Prop :=
  (forall c r, s = String c r -> is_space c = false) /\
  (forall c, last_char s = Some c -> is_space c = false).

(** The ladder of [analyze_slb_relevance] as a function of the three counts
    and of the presence of one of the two names. *)
Definition ladder (named : bool) (hc mc rc : nat) : relevance :=
  if (2 <=? hc) || named then High
  else if (1 <=? hc) || (2 <=? mc) then Moderate
  else if (1 <=? mc) || (1 <=? rc) then Relevant
  else Low.

Definition named_in (text : string) : bool :=
  contains "slb" text || contains "schlumberger" text.

(** 1 when the keyword occurs in the search text of the story, else 0. *)
Definition hit (story : Story) (keyword : string) : nat :=
  if contains (lower keyword) (search_text story) then 1 else 0.

(** Every piece but the last is non-empty. *)
Fixpoint inner_nonempty (pieces : list string) : Prop :=
  match pieces with
  | [] => True
  | [_] => True
  | piece :: rest => piece <> "" /\ inner_nonempty rest
  end.

(** Every stored keyword is lowercase and non-empty. *)
Definition normalized (st : session_state) : Prop :=
  Forall (fun keyword => lower keyword = keyword /\ keyword <> "")
         (all_keywords st).

(** The default lists with ["slb"] taken to the end of the high tier. *)
Definition reordered_store : session_state :=
  set_tier high (remove_first "slb" default_high_keywords ++ ["slb"]) default_store.

(** An item whose title is blank and whose categories are padded, one of
    them blank. *)
Definition padded_item : Element :=
  Elem "item" None
    [ Elem "title" (Some "   ") [];
      Elem "category" (Some " Drilling ") [];
      Elem "category" (Some "  ") [];
      Elem "category" (Some "LNG") [];
      Elem "pubDate" (Some "  2025-06-20T18:11:59Z") [] ].

(** [s * n] *)
Fixpoint times (n : nat) (s : string) : string :=
  match n with
  | O => ""
  | S k => s +++ times k s
  end.

(** A description of 501 characters: a full stop, then 250 one-letter
    sentences. *)
Definition dotted_description : string := "." +++ times 250 "a.".

(** Two states hold the same keyword lists, both after initialization. *)
Definition same_lists (st st' : session_state) : Prop :=
  keywords_initialized st <> None /\ keywords_initialized st' <> None /\
  forall t, get_tier t st = get_tier t st'.

(* ================================================================= *)
(** ** Splitting at runs of separators, in words *)





(* ================================================================= *)
(** * Properties *)

(** ** Strings *)

Lemma append_assoc (a b c : string) : (a +++ b) +++ c = a +++ b +++ c.
Proof. induction a as [|x a IH]; simpl; [reflexivity | now rewrite IH]. Qed.

Lemma append_eq_empty (a b : string) : a +++ b = "" -> a = "" /\ b = "".
Proof. destruct a; simpl; [auto | discriminate]. Qed.

Lemma last_char_append (a b : string) :
  b <> "" -> last_char (a +++ b) = last_char b.
Proof.
  intros Hb. induction a as [|x a IH]; simpl; [reflexivity|].
  destruct (a +++ b) eqn:E.
  - apply append_eq_empty in E. now destruct E.
  - exact IH.
Qed.

Lemma ensure_terminal_ends (s : string) :
  endswith_terminal (ensure_terminal s) = true.
Proof.
  unfold ensure_terminal. destruct (endswith_terminal s) eqn:E; [exact E|].
  unfold endswith_terminal. rewrite last_char_append by discriminate.
  reflexivity.
Qed.

Lemma substring_zero (s : string) : substring 0 0 s = "".
Proof. destruct s; reflexivity. Qed.

Lemma lower_char_idem (c : ascii) : lower_char (lower_char c) = lower_char c.
Proof. destruct c as [[] [] [] [] [] [] [] []]; reflexivity. Qed.

Lemma lower_idem (s : string) : lower (lower s) = lower s.
Proof.
  induction s as [|c s IH]; simpl; [reflexivity|].
  now rewrite lower_char_idem, IH.
Qed.


Lemma mem_In (x : string) (l : list string) : mem x l = true <-> In x l.
Proof.
  unfold mem. rewrite existsb_exists. split.
  - intros [y [Hy E]]. apply String.eqb_eq in E. now subst.
  - intros H. exists x. split; [assumption | apply String.eqb_refl].
Qed.

Lemma mem_not_In (x : string) (l : list string) : mem x l = false <-> ~ In x l.
Proof.
  rewrite <- mem_In. destruct (mem x l); split; intros; congruence.
Qed.

Lemma py_sum_ones {A : Type} (l : list A) :
  py_sum (map (fun _ => 1) l) = List.length l.
Proof.
  unfold py_sum.
  assert (G : forall a, fold_left Nat.add (map (fun _ : A => 1) l) a = a + List.length l).
  { induction l as [|x l IH]; intros a; simpl; [lia|]. rewrite IH. lia. }
  apply (G 0).
Qed.

(* ----------------------------------------------------------------- *)
(** ** create_editorial_summary *)

(** C5 (amended): for every story the returned string is
    [summary ++ " | " ++ date ++ " | Upstream"] with [date] the story's date
    field, and it is the summary part that ends in ['.'], ['!'] or ['?'];
    the returned string itself ends with the letters of [Upstream]. *)
Theorem C5_summary_shape (story : Story) :
  exists summary,
    create_editorial_summary story
      = summary +++ " | " +++ date story +++ " | Upstream" /\
    (exists c, last_char summary = Some c /\
               (c = "."%char \/ c = "!"%char \/ c = "?"%char)) /\
    last_char (create_editorial_summary story) = Some "m"%char.
Proof.
  exists (summary_of (description story)). split; [reflexivity|]. split.
  - assert (E : endswith_terminal (summary_of (description story)) = true).
    { unfold summary_of.
      destruct (300 <? String.length (description story));
        apply ensure_terminal_ends. }
    unfold endswith_terminal in E.
    destruct (last_char (summary_of (description story))) as [c|];
      [|discriminate].
    exists c. split; [reflexivity|].
    unfold is_terminal in E.
    apply orb_true_iff in E. destruct E as [E|E].
    + apply orb_true_iff in E. destruct E as [E|E];
        apply Ascii.eqb_eq in E; auto.
    + apply Ascii.eqb_eq in E; auto.
  - unfold create_editorial_summary.
    rewrite <- !append_assoc.
    rewrite last_char_append by discriminate. reflexivity.
Qed.

(** C5, as stated, fails: the string returned for a story does not end in
    ['.'], ['!'] or ['?']. *)
Lemma C5_returned_string_ends_in_Upstream :
  let story := mkStory "Rig count" "" "Oil prices rose." "20 Jun 2025" "Unknown" "" in
  create_editorial_summary story = "Oil prices rose. | 20 Jun 2025 | Upstream" /\
  endswith_terminal (create_editorial_summary story) = false.
Proof. split; reflexivity. Qed.

(** An empty description: the summary part is the appended ['.']. *)
Example create_editorial_summary_empty_description :
  create_editorial_summary (mkStory "No title" "" "" "Unknown" "Unknown" "")
  = ". | Unknown | Upstream".
Proof. reflexivity. Qed.


(** The loop keeps the longest prefix of the sentences that fits the budget. *)
Lemma accumulate_spec (sentences : list string) :
  forall n parts, n <= 250 ->
    exists k,
      k <= List.length sentences /\
      accumulate sentences n parts = parts ++ map strip (firstn k sentences) /\
      n + total_length (firstn k sentences) <= 250 /\
      (k < List.length sentences ->
       250 < n + total_length (firstn (S k) sentences)).
Proof.
  unfold total_length.
  induction sentences as [|x rest IH]; intros n parts Hn.
  - exists 0. simpl. rewrite app_nil_r. repeat split; lia.
  - simpl accumulate. destruct (250 <? n + String.length x) eqn:E.
    + apply Nat.ltb_lt in E. exists 0. simpl. rewrite app_nil_r.
      repeat split; lia.
    + apply Nat.ltb_ge in E.
      destruct (IH (n + String.length x) (parts ++ [strip x]) E)
        as [k [Hk [Hacc [Hfit Hnext]]]].
      exists (S k). simpl. rewrite Hacc, <- app_assoc. simpl.
      repeat split; try lia.
      intros Hlt. simpl in Hnext. lia.
Qed.














(** The sentences of three small texts: a run counts as one separator, and
    a text that starts or ends with a separator has an empty first or last
    sentence. *)
Example re_split_examples :
  re_split "One. Two?! Three" = ["One"; " Two"; " Three"] /\
  re_split "...and so on." = [""; "and so on"; ""] /\
  re_split "no separator" = ["no separator"].
Proof. repeat split. Qed.

(** The loop on [long_story]: two sentences are kept, the third is cut. *)
Example create_editorial_summary_long_story :
  create_editorial_summary long_story =
  "SLB announced a new drilling technology for deepwater wells in the Gulf of Mexico this week. " +++
  "It will improve efficiency and lower the cost of every completion that the operator plans. " +++
  "| 20 Jun 2025 | Upstream".
Proof. vm_compute. reflexivity. Qed.

(* ----------------------------------------------------------------- *)
(** ** The date pattern *)

Section DatePatternFacts.
Variable mid : ascii -> bool.

Lemma match_tail_inv (s : string) :
  match_tail mid s = true ->
  exists w1 w2 w3 d1 d2 d3 d4 rest,
    s = String " " (String w1 (String w2 (String w3 (String " "
          (String d1 (String d2 (String d3 (String d4 rest)))))))) /\
    all_chars mid (String w1 (String w2 (String w3 ""))) = true /\
    all_chars is_digit (String d1 (String d2 (String d3 (String d4 "")))) = true.
Proof.
  destruct s as [|s1 [|w1 [|w2 [|w3 [|s2 [|d1 [|d2 [|d3 [|d4 rest]]]]]]]]];
    simpl; try discriminate.
  intros H. repeat (apply andb_true_iff in H; destruct H as [H ?]).
  apply Ascii.eqb_eq in H. subst s1.
  match goal with E : Ascii.eqb s2 _ = true |- _ =>
    apply Ascii.eqb_eq in E; subst s2 end.
  exists w1, w2, w3, d1, d2, d3, d4, rest. simpl.
  repeat match goal with E : _ = true |- _ => rewrite E; clear E end.
  auto.
Qed.

Lemma match_tail_intro (mon year rest : string) :
  String.length mon = 3 -> all_chars mid mon = true ->
  String.length year = 4 -> all_chars is_digit year = true ->
  match_tail mid (" " +++ mon +++ " " +++ year +++ rest) = true.
Proof.
  intros Lm Am Ly Ay.
  destruct mon as [|w1 [|w2 [|w3 [|]]]]; try discriminate Lm.
  destruct year as [|d1 [|d2 [|d3 [|d4 [|]]]]]; try discriminate Ly.
  simpl in *. 
  repeat (apply andb_true_iff in Am; destruct Am as [? Am]).
  repeat (apply andb_true_iff in Ay; destruct Ay as [? Ay]).
  repeat match goal with E : _ = true |- _ => rewrite E; clear E end.
  reflexivity.
Qed.

Lemma match_here_sound (s m : string) :
  match_here mid s = Some m ->
  exists post, s = m +++ post /\ date_token mid m.
Proof.
  unfold match_here. destruct s as [|a r]; [discriminate|].
  destruct (is_digit a) eqn:Da; [|discriminate].
  destruct r as [|b r']; [discriminate|].
  destruct (is_digit b && match_tail mid r') eqn:E2.
  - apply andb_true_iff in E2. destruct E2 as [Db T].
    apply match_tail_inv in T.
    destruct T as (w1 & w2 & w3 & d1 & d2 & d3 & d4 & rest & -> & Am & Ay).
    intros H. injection H as <-. exists rest. unfold slice_to. simpl.
    rewrite substring_zero. split; [reflexivity|].
    exists (String a (String b "")), (String w1 (String w2 (String w3 ""))),
           (String d1 (String d2 (String d3 (String d4 "")))).
    simpl. rewrite Da, Db. simpl in Am, Ay. rewrite Am, Ay. auto 10.
  - destruct (match_tail mid (String b r')) eqn:T; [|discriminate].
    apply match_tail_inv in T.
    destruct T as (w1 & w2 & w3 & d1 & d2 & d3 & d4 & rest & E & Am & Ay).
    rewrite E. intros H. injection H as <-. exists rest.
    unfold slice_to. simpl. rewrite substring_zero.
    split; [reflexivity|].
    exists (String a ""), (String w1 (String w2 (String w3 ""))),
           (String d1 (String d2 (String d3 (String d4 "")))).
    simpl. rewrite Da. simpl in Am, Ay. rewrite Am, Ay. auto 10.
Qed.

Lemma match_here_complete (m post : string) :
  date_token mid m -> match_here mid (m +++ post) = Some m.
Proof.
  intros (day & mon & year & -> & Ld & Ad & Lm & Am & Ly & Ay).
  pose proof (match_tail_intro mon year post Lm Am Ly Ay) as T.
  destruct mon as [|w1 [|w2 [|w3 [|]]]]; try discriminate Lm.
  destruct year as [|d1 [|d2 [|d3 [|d4 [|]]]]]; try discriminate Ly.
  destruct Ld as [Ld|Ld].
  - destruct day as [|a [|]]; try discriminate Ld.
    simpl in Ad. apply andb_true_iff in Ad. destruct Ad as [Da _].
    simpl in T |- *. rewrite Da. simpl.
    simpl in T. rewrite T. unfold slice_to. simpl.
    now rewrite substring_zero.
  - destruct day as [|a [|b [|]]]; try discriminate Ld.
    simpl in Ad. apply andb_true_iff in Ad. destruct Ad as [Da Ad].
    apply andb_true_iff in Ad. destruct Ad as [Db _].
    simpl in T |- *. rewrite Da, Db. simpl.
    simpl in T. rewrite T. unfold slice_to. simpl.
    now rewrite substring_zero.
Qed.

Lemma search_date_cons (c : ascii) (r : string) :
  search_date mid (String c r) =
  match match_here mid (String c r) with
  | Some m => Some m
  | None => search_date mid r
  end.
Proof. reflexivity. Qed.

Lemma search_date_first_match (s m : string) :
  search_date mid s = Some m -> first_match mid s m.
Proof.
  induction s as [|c r IH]; [discriminate | rewrite search_date_cons].
  - destruct (match_here mid (String c r)) as [m0|] eqn:E.
    + intros H. injection H as <-.
      destruct (match_here_sound _ _ E) as [post [Es Tk]].
      exists "", post. simpl. repeat split; auto. intros. lia.
    + intros H. destruct (IH H) as (pre & post & Er & Tk & Hmin).
      exists (String c pre), post. simpl. rewrite <- Er.
      repeat split; auto.
      intros pre' m' post' Es Tk'. destruct pre' as [|c' pre''].
      * simpl in Es. rewrite Es, (match_here_complete m' post' Tk') in E.
        discriminate.
      * simpl in Es. injection Es as _ Er'.
        specialize (Hmin pre'' m' post' Er' Tk'). simpl. lia.
Qed.

Lemma search_date_no_match (s : string) :
  search_date mid s = None -> no_match mid s.
Proof.
  induction s as [|c r IH]; [|rewrite search_date_cons].
  - intros _ pre m post Es Tk. destruct pre; [|discriminate].
    simpl in Es. pose proof (match_here_complete m post Tk) as E.
    rewrite <- Es in E. discriminate.
  - destruct (match_here mid (String c r)) as [m0|] eqn:E; [discriminate|].
    intros H pre m post Es Tk. destruct pre as [|c' pre'].
    + simpl in Es. rewrite Es, (match_here_complete m post Tk) in E.
      discriminate.
    + simpl in Es. injection Es as _ Er. exact (IH H pre' m post Er Tk).
Qed.

Lemma append_inj_length (a b c d : string) :
  a +++ b = c +++ d -> String.length a = String.length c -> b = d.
Proof.
  revert c. induction a as [|x a IH]; intros [|y c] E L;
    try discriminate L; simpl in E; [assumption|].
  injection E as _ E. injection L as L. exact (IH c E L).
Qed.

Lemma first_match_unique (s m1 m2 : string) :
  first_match mid s m1 -> first_match mid s m2 -> m1 = m2.
Proof.
  intros (p1 & q1 & E1 & T1 & M1) (p2 & q2 & E2 & T2 & M2).
  pose proof (M1 p2 m2 q2 E2 T2). pose proof (M2 p1 m1 q1 E1 T1).
  assert (E : m1 +++ q1 = m2 +++ q2).
  { apply (append_inj_length p1 _ p2); [congruence | lia]. }
  pose proof (match_here_complete m1 q1 T1) as H1.
  pose proof (match_here_complete m2 q2 T2) as H2.
  rewrite E in H1. congruence.
Qed.

Lemma first_match_search (s m : string) :
  first_match mid s m -> search_date mid s = Some m.
Proof.
  intros F. destruct (search_date mid s) as [m0|] eqn:E.
  - f_equal. exact (first_match_unique s m0 m (search_date_first_match _ _ E) F).
  - destruct F as (pre & post & Es & Tk & _).
    exfalso. exact (search_date_no_match s E pre m post Es Tk).
Qed.

Lemma no_match_search (s : string) :
  no_match mid s -> search_date mid s = None.
Proof.
  intros N. destruct (search_date mid s) as [m0|] eqn:E; [|reflexivity].
  destruct (search_date_first_match _ _ E) as (pre & post & Es & Tk & _).
  exfalso. exact (N pre m0 post Es Tk).
Qed.
End DatePatternFacts.

Lemma slice_to_short (n : nat) (s : string) :
  String.length s <= n -> slice_to n s = s.
Proof.
  unfold slice_to. revert n. induction s as [|c r IH]; intros [|n] L; simpl in *;
    try reflexivity; try lia.
  rewrite IH by lia. reflexivity.
Qed.

(* ----------------------------------------------------------------- *)
(** ** parse_rss_content: the date field *)

Lemma truthy_nonempty (s : string) : s <> "" -> truthy s = true.
Proof. destruct s; [congruence | reflexivity]. Qed.

(** C6 (amended): when the item's [pubDate] has non-empty text, the date
    field is the first substring of that text made of one or two digits, a
    space, three word characters (letters, digits or underscores, whether
    or not they spell a month), a space and four digits, when there is one,
    and otherwise the first ten characters of the text; one of the two
    cases always applies.  When [pubDate] is missing or has no text the
    date field is ["Unknown"]. *)
Theorem C6_date_field (item : Element) :
  (forall e raw,
      find_child "pubDate" item = Some e -> text e = Some raw -> raw <> "" ->
      (forall m, first_match is_word raw m -> date (story_of_item item) = m) /\
      (no_match is_word raw -> date (story_of_item item) = slice_to 10 raw) /\
      ((exists m, first_match is_word raw m) \/ no_match is_word raw)) /\
  (pub_date_missing item -> date (story_of_item item) = "Unknown").
Proof.
  split.
  - intros e raw Hfind Htext Hne.
    assert (D : date (story_of_item item) =
                match re_search_date raw with
                | Some m => m
                | None => slice_to 10 raw
                end).
    { simpl. unfold extract_date. rewrite Hfind.
      unfold text_truthy, text_string. rewrite Htext.
      rewrite (truthy_nonempty raw Hne).
      destruct (re_search_date raw); [reflexivity|].
      destruct (10 <? String.length raw) eqn:L; [reflexivity|].
      apply Nat.ltb_ge in L. symmetry. now apply slice_to_short. }
    unfold re_search_date in D. repeat split.
    + intros m F. now rewrite D, (first_match_search is_word raw m F).
    + intros N. now rewrite D, (no_match_search is_word raw N).
    + destruct (search_date is_word raw) as [m|] eqn:E.
      * left. exists m. now apply search_date_first_match.
      * right. now apply search_date_no_match.
  - unfold pub_date_missing. simpl. unfold extract_date.
    destruct (find_child "pubDate" item) as [e|]; [|reflexivity].
    unfold text_truthy. intros [H|H]; rewrite H; reflexivity.
Qed.

(** The theorem on an item dated ["Fri, 20 Jun 2025 18:11:59 +0200"] and on
    an item without [pubDate]. *)
Lemma C6_date_field_witness :
  date (story_of_item dated_item) = "20 Jun 2025" /\
  date (story_of_item undated_item) = "Unknown".
Proof.
  split.
  - destruct (C6_date_field dated_item) as [H _].
    destruct (H (Elem "pubDate" (Some "Fri, 20 Jun 2025 18:11:59 +0200") [])
                "Fri, 20 Jun 2025 18:11:59 +0200" eq_refl eq_refl)
      as [Hm _]; [discriminate|].
    apply Hm. apply search_date_first_match. reflexivity.
  - destruct (C6_date_field undated_item) as [_ H]. apply H. exact I.
Defined.

(** C6, as stated, fails: the text ["12 345 6789 x"] holds no letters at
    all, hence no month abbreviation between a day and a year, so the date
    should be its first ten characters; the code takes ["345"] for the
    month and returns eleven characters. *)
Lemma C6_digits_pass_for_month :
  no_match is_alpha "12 345 6789 x" /\
  date (story_of_item numeric_date_item) = "12 345 6789" /\
  date (story_of_item numeric_date_item) <> slice_to 10 "12 345 6789 x".
Proof.
  split; [|split].
  - apply search_date_no_match. reflexivity.
  - reflexivity.
  - discriminate.
Qed.

(* ----------------------------------------------------------------- *)
(** ** parse_rss_content: one story per item *)

Lemma Element_forall_ind (P : Element -> Prop) :
  (forall t x cs, Forall P cs -> P (Elem t x cs)) -> forall e, P e.
Proof.
  intros H. fix IH 1. intros [t x cs]. apply H.
  revert cs. fix IHcs 1. intros [|c cs].
  - constructor.
  - constructor; [apply IH | apply IHcs].
Qed.

Lemma count_tag_iter (t : string) (e : Element) :
  List.length (filter (has_tag t) (iter e)) = count_tag t e.
Proof.
  induction e as [t' x cs IH] using Element_forall_ind.
  assert (G : List.length (filter (has_tag t) (flat_map iter cs))
              = list_sum (map (count_tag t) cs)).
  { induction IH as [|c cs Hc _ IHcs]; simpl; [reflexivity|].
    now rewrite filter_app, length_app, Hc, IHcs. }
  cbn [iter filter count_tag].
  destruct (has_tag t (Elem t' x cs)); simpl; now rewrite G.
Qed.

(** The root itself is never selected by ['.//item']: the stories are those
    of the item elements below it. *)
Lemma parse_rss_content_below_root (root : Element) :
  List.length (parse_rss_content (Parsed root))
  = list_sum (map (count_tag "item") (children root)).
Proof.
  simpl. rewrite length_map. unfold findall_descendants.
  induction (children root) as [|c cs IH]; simpl; [reflexivity|].
  now rewrite filter_app, length_app, count_tag_iter, IH.
Qed.

Lemma positions_unfold (e : Element) :
  positions e = ([], e) :: forest_positions 0 (children e).
Proof. destruct e. reflexivity. Qed.

Lemma map_snd_at_child (i : nat) (l : list (list nat * Element)) :
  map snd (map (at_child i) l) = map snd l.
Proof. rewrite map_map. apply map_ext. now intros []. Qed.

(** The positions list the elements in the order of [iter]. *)
Lemma positions_iter (e : Element) : map snd (positions e) = iter e.
Proof.
  induction e as [t x cs IH] using Element_forall_ind.
  rewrite positions_unfold. simpl. f_equal.
  generalize 0. induction IH as [|c cs Hc _ IHcs]; intros i; simpl; [reflexivity|].
  now rewrite map_app, map_snd_at_child, Hc, IHcs.
Qed.

Lemma forest_positions_In (l : list Element) :
  forall i p x,
    In (p, x) (forest_positions i l) <->
    exists j c q, p = (i + j) :: q /\ nth_error l j = Some c /\
                  In (q, x) (positions c).
Proof.
  induction l as [|c r IH]; intros i p x; simpl.
  - split; [tauto|]. intros (j & c & q & _ & E & _). now destruct j.
  - rewrite in_app_iff, IH, in_map_iff. split.
    + intros [([q y] & E & Hq)|(j & c' & q & -> & E & Hq)].
      * injection E as <- <-. exists 0, c, q. rewrite Nat.add_0_r. auto.
      * exists (S j), c', q. rewrite Nat.add_succ_r. auto.
    + intros (j & c' & q & -> & E & Hq). destruct j as [|j]; simpl in E.
      * injection E as <-. left. exists (q, x).
        rewrite Nat.add_0_r. auto.
      * right. exists j, c', q. rewrite Nat.add_succ_r. auto.
Qed.

(** [positions] lists exactly the elements of the tree, each at its place. *)
Lemma positions_subtree (p : list nat) :
  forall e x, In (p, x) (positions e) <-> subtree e p = Some x.
Proof.
  induction p as [|i rest IH]; intros e x;
    rewrite positions_unfold; simpl; rewrite forest_positions_In.
  - split.
    + intros [E|(j & c & q & E & _)]; [congruence | discriminate].
    + intros E. left. congruence.
  - split.
    + intros [E|(j & c & q & E & Hn & Hq)]; [discriminate|].
      injection E as -> ->. simpl. rewrite Hn. now apply IH.
    + destruct (nth_error (children e) i) as [c|] eqn:Hn; [|discriminate].
      intros Hs. right. exists i, c, rest. repeat split; auto. now apply IH.
Qed.

Lemma StronglySorted_app {A : Type} (R : A -> A -> Prop) (l1 l2 : list A) :
  StronglySorted R l1 -> StronglySorted R l2 ->
  (forall a b, In a l1 -> In b l2 -> R a b) ->
  StronglySorted R (l1 ++ l2).
Proof.
  induction 1 as [|a l1 _ IH Ha]; intros H2 Hc; simpl; [assumption|].
  constructor.
  - apply IH; [assumption|]. intros. apply Hc; [now right | assumption].
  - apply Forall_app. split; [assumption|].
    apply Forall_forall. intros b Hb. apply Hc; [now left | assumption].
Qed.

Lemma StronglySorted_filter {A : Type} (R : A -> A -> Prop) (f : A -> bool)
    (l : list A) :
  StronglySorted R l -> StronglySorted R (filter f l).
Proof.
  induction 1 as [|a l _ IH Ha]; simpl; [constructor|].
  destruct (f a); [|assumption].
  constructor; [assumption|].
  apply Forall_forall. intros b Hb. apply filter_In in Hb.
  rewrite Forall_forall in Ha. now apply Ha.
Qed.

Lemma precedes_same_head (i : nat) (p q : list nat) :
  precedes (i :: p) (i :: q) = precedes p q.
Proof. simpl. now rewrite Nat.ltb_irrefl, Nat.eqb_refl. Qed.

(** [positions] lists the elements in document order. *)
Lemma positions_in_document_order (e : Element) :
  in_document_order (positions e).
Proof.
  unfold in_document_order.
  induction e as [t x cs IH] using Element_forall_ind.
  rewrite positions_unfold. simpl children. constructor.
  - generalize 0. induction IH as [|c cs Hc _ IHcs]; intros i; simpl;
      [constructor|].
    apply StronglySorted_app.
    + clear -Hc. induction Hc as [|a l _ IHl Ha]; simpl; constructor;
        [assumption|].
      apply Forall_forall. intros b Hb. apply in_map_iff in Hb.
      destruct Hb as (b' & <- & Hb'). unfold at_child. cbn [fst].
      rewrite precedes_same_head.
      rewrite Forall_forall in Ha. now apply Ha.
    + apply IHcs.
    + intros [p a] [q b] Ha Hb. apply in_map_iff in Ha.
      destruct Ha as ([p' a'] & E & _). injection E as <- <-.
      apply forest_positions_In in Hb.
      destruct Hb as (j & c' & q' & -> & _ & _). simpl.
      apply orb_true_iff. left. apply Nat.ltb_lt. lia.
  - apply Forall_forall. intros [p a] Hp.
    apply forest_positions_In in Hp. destruct Hp as (j & c & q & -> & _).
    reflexivity.
Qed.

(** C7: for a well-formed feed document (its root is the feed's container
    element, not itself an [item]) with [k] item elements anywhere in it,
    [parse_rss_content] returns exactly [k] stories, one per item element,
    in document order: there is a list of the item elements with their
    positions that holds exactly the item elements of the document, in
    strictly increasing document order, and the stories are the stories of
    its entries, one after the other. *)
Theorem C7_one_story_per_item (root : Element) (Hroot : tag root <> "item") :
  exists items : list (list nat * Element),
    (forall p x, In (p, x) items <-> subtree root p = Some x /\ tag x = "item") /\
    in_document_order items /\
    parse_rss_content (Parsed root)
      = map (fun px => story_of_item (snd px)) items /\
    List.length items = count_tag "item" root /\
    List.length (parse_rss_content (Parsed root)) = count_tag "item" root.
Proof.
  set (is_item := fun px : list nat * Element => has_tag "item" (snd px)).
  assert (E : filter (has_tag "item") (iter root)
              = findall_descendants "item" root).
  { destruct root as [t x cs]. cbn [iter filter].
    unfold has_tag at 1. simpl in Hroot |- *.
    apply String.eqb_neq in Hroot. now rewrite Hroot. }
  assert (F : map snd (filter is_item (positions root))
              = findall_descendants "item" root).
  { rewrite <- E, <- positions_iter. unfold is_item.
    now rewrite filter_map_swap. }
  exists (filter is_item (positions root)).
  split; [|split; [|split; [|split]]].
  - intros p x. rewrite filter_In, positions_subtree.
    unfold is_item, has_tag. simpl. now rewrite String.eqb_eq.
  - apply StronglySorted_filter, positions_in_document_order.
  - simpl. now rewrite <- F, map_map.
  - rewrite <- (length_map snd), F, <- E. apply count_tag_iter.
  - simpl. rewrite length_map, <- E. apply count_tag_iter.
Qed.

(** The theorem on a feed whose third item is nested below the channel's
    children. *)
Lemma C7_one_story_per_item_witness :
  tag sample_feed <> "item" /\
  count_tag "item" sample_feed = 3 /\
  List.length (parse_rss_content (Parsed sample_feed)) = 3.
Proof.
  assert (H : tag sample_feed <> "item") by discriminate.
  destruct (C7_one_story_per_item sample_feed H) as (items & _ & _ & _ & _ & Hlen).
  split; [exact H|]. split; [reflexivity|]. exact Hlen.
Defined.

(** The stories of that feed, in the order of its items. *)
Example parse_rss_content_sample_feed :
  map title (parse_rss_content (Parsed sample_feed))
    = ["Rig count rises"; "Rig count rises"; "Rig count rises"] /\
  map date (parse_rss_content (Parsed sample_feed))
    = ["20 Jun 2025"; "Unknown"; "12 345 6789"].
Proof. split; reflexivity. Qed.

(* ----------------------------------------------------------------- *)
(** ** The keyword lists: moving a keyword *)

Lemma mem_last (x : string) (l : list string) : mem x (l ++ [x]) = true.
Proof. apply mem_In, in_or_app. right. now left. Qed.

Lemma remove_first_app_present (x : string) (l l' : list string) :
  In x l -> remove_first x (l ++ l') = remove_first x l ++ l'.
Proof.
  induction l as [|y l IH]; simpl; [tauto|]. intros H.
  destruct (String.eqb_spec y x) as [->|N]; [reflexivity|].
  destruct H as [H|H]; [congruence|]. now rewrite IH.
Qed.

Lemma remove_first_last (x : string) (l : list string) :
  ~ In x l -> remove_first x (l ++ [x]) = l.
Proof.
  induction l as [|y l IH]; simpl; intros H.
  - now rewrite String.eqb_refl.
  - destruct (String.eqb_spec y x) as [->|_]; [exfalso; auto|].
    rewrite IH; [reflexivity | auto].
Qed.

Lemma remove_first_perm (x : string) (l : list string) :
  In x l -> Permutation (x :: remove_first x l) l.
Proof.
  induction l as [|y l IH]; simpl; [tauto|]. intros H.
  destruct (String.eqb_spec y x) as [->|N]; [reflexivity|].
  destruct H as [H|H]; [congruence|].
  etransitivity; [apply perm_swap|]. constructor. now apply IH.
Qed.

(** The keyword taken out of a tier and appended to it again. *)
Lemma remove_append_perm (x : string) (l : list string) :
  In x l -> Permutation (remove_first x l ++ [x]) l.
Proof.
  intros H. etransitivity; [|apply (remove_first_perm x l H)].
  symmetry. apply Permutation_cons_append.
Qed.

(** The keyword appended to a tier and taken out of it again. *)
Lemma append_remove_perm (x : string) (l : list string) :
  Permutation (remove_first x (l ++ [x])) l.
Proof.
  destruct (in_dec string_dec x l) as [H|H].
  - rewrite remove_first_app_present by assumption.
    now apply remove_append_perm.
  - now rewrite remove_first_last.
Qed.

Ltac tier_perm :=
  first
    [ apply Permutation_refl
    | apply remove_append_perm; assumption
    | apply append_remove_perm
    | etransitivity; [apply append_remove_perm | apply append_remove_perm] ].

(** C9: when [keyword] is an entry of tier [A], moving it from [A] to [B]
    and then from [B] back to [A] raises no error and leaves each of the
    three tiers with the entries it had before (the same keywords, each as
    many times as before). *)
Theorem C9_move_round_trip (keyword : string) (A B : tier) (st : session_state)
    (Hin : In keyword (get_tier A st)) :
  exists st1 st2,
    move keyword A B st = Done st1 /\
    move keyword B A st1 = Done st2 /\
    (forall t, Permutation (get_tier t st2) (get_tier t st)) /\
    (forall t kw, In kw (get_tier t st2) <-> In kw (get_tier t st)).
Proof.
  assert (G : exists st1 st2,
    move keyword A B st = Done st1 /\
    move keyword B A st1 = Done st2 /\
    (forall t, Permutation (get_tier t st2) (get_tier t st))).
  { destruct st as [f h m r].
    destruct A, B; simpl in Hin; pose proof Hin as Hmem;
      apply mem_In in Hmem;
      (eexists; eexists; split;
       [ unfold move; simpl; rewrite ?mem_last, ?Hmem; reflexivity
       | split;
         [ unfold move; simpl; rewrite ?mem_last, ?Hmem; reflexivity
         | intros []; simpl; tier_perm ] ]). }
  destruct G as (st1 & st2 & H1 & H2 & HP).
  exists st1, st2. repeat split; auto.
  - apply Permutation_in, HP.
  - apply Permutation_in. symmetry. apply HP.
Qed.

(** The theorem on ["drilling"], moved from the high tier to the moderate
    tier and back. *)
Lemma C9_move_round_trip_witness :
  In "drilling" (get_tier high default_store) /\
  exists st1 st2,
    move "drilling" high moderate default_store = Done st1 /\
    move "drilling" moderate high st1 = Done st2 /\
    (forall t, Permutation (get_tier t st2) (get_tier t default_store)).
Proof.
  assert (H : In "drilling" (get_tier high default_store)).
  { apply mem_In. reflexivity. }
  split; [exact H|].
  destruct (C9_move_round_trip "drilling" high moderate default_store H)
    as (st1 & st2 & H1 & H2 & HP & _).
  exists st1, st2. auto.
Defined.

(** The round trip does not restore the order of the entries: the keyword
    comes back at the end of its tier. *)
Example round_trip_moves_keyword_to_the_end :
  let st1 := state_of (move "slb" high moderate default_store) in
  let st2 := state_of (move "slb" moderate high st1) in
  hd_error (high_keywords default_store) = Some "slb" /\
  hd_error (high_keywords st2) = Some "schlumberger" /\
  last (high_keywords st2) "" = "slb".
Proof. repeat split. Qed.

(* ----------------------------------------------------------------- *)
(** ** The keyword lists: one tier per keyword *)

Lemma NoDup_app_disjoint {A : Type} (a b : list A) (x : A) :
  NoDup (a ++ b) -> In x a -> In x b -> False.
Proof.
  induction a as [|y a IH]; simpl; [tauto|].
  intros H [->|Ha] Hb.
  - inversion H as [|? ? Hn _]. apply Hn, in_or_app. now right.
  - inversion H. now apply IH.
Qed.

Lemma default_store_invariant : store_invariant default_store.
Proof.
  split; [discriminate|].
  assert (E : nodup string_dec (map lower (all_keywords default_store))
              = map lower (all_keywords default_store)) by (vm_compute; reflexivity).
  rewrite <- E. apply NoDup_nodup.
Qed.

Lemma invariant_one_tier_each (st : session_state) :
  store_invariant st -> one_tier_each st /\ no_repeated_entry st.
Proof.
  intros [_ H]. unfold all_keywords in H. rewrite !map_app in H.
  pose proof (NoDup_app_remove_l _ _ H) as Hmr.
  split.
  - intros kw t1 t2 H1 H2. unfold in_tier_ci in *.
    destruct t1, t2; simpl in *; try reflexivity; exfalso.
    + eapply (NoDup_app_disjoint _ _ _ H); [eassumption | apply in_or_app; now left].
    + eapply (NoDup_app_disjoint _ _ _ H); [eassumption | apply in_or_app; now right].
    + eapply (NoDup_app_disjoint _ _ _ H); [eassumption | apply in_or_app; now left].
    + eapply (NoDup_app_disjoint _ _ _ Hmr); eassumption.
    + eapply (NoDup_app_disjoint _ _ _ H); [eassumption | apply in_or_app; now right].
    + eapply (NoDup_app_disjoint _ _ _ Hmr); eassumption.
  - intros []; simpl.
    + exact (NoDup_app_remove_r _ _ H).
    + exact (NoDup_app_remove_r _ _ Hmr).
    + exact (NoDup_app_remove_l _ _ Hmr).
Qed.

Lemma initialize_initialized (st : session_state) :
  keywords_initialized st <> None -> initialize st = st.
Proof.
  unfold initialize. destruct (keywords_initialized st); [reflexivity | congruence].
Qed.

Ltac count_perm x :=
  apply (Permutation_count_occ string_dec); intros x;
  repeat rewrite count_occ_app.

(** An arrow button rearranges the entries without adding or losing any. *)
Lemma press_move_perm (b : move_button) (i : nat) (st : session_state) :
  keywords_initialized (state_of (keyword_manager (PressMove b i) st))
    = keywords_initialized st /\
  Permutation (all_keywords (state_of (keyword_manager (PressMove b i) st)))
              (all_keywords st).
Proof.
  simpl.
  destruct (nth_error (get_tier (source b) st) i) as [kw|] eqn:E;
    [|split; reflexivity].
  apply nth_error_In in E. pose proof E as Hmem. apply mem_In in Hmem.
  pose proof (remove_first_perm kw _ E) as HP.
  destruct st as [f h m r].
  destruct b; simpl in *; unfold move; simpl; rewrite Hmem; simpl;
    (split; [reflexivity|]); unfold all_keywords; simpl;
    rewrite (Permutation_count_occ string_dec) in HP;
    count_perm x; specialize (HP x); simpl in *;
    destruct (string_dec kw x); lia.
Qed.

Lemma step_preserves_invariant (st : session_state) (ev : event) :
  store_invariant st -> guarded st ev -> store_invariant (step st ev).
Proof.
  intros [Hi Hn] Hg. unfold step. destruct ev as [b i|t new|].
  - destruct (press_move_perm b i st) as [Hk HP].
    rewrite initialize_initialized by congruence.
    split; [congruence|].
    apply (Permutation_NoDup (l := map lower (all_keywords st)));
      [|assumption].
    apply Permutation_map. now symmetry.
  - assert (Hk : keywords_initialized (add t new st) = keywords_initialized st).
    { unfold add. destruct (truthy new); [|reflexivity].
      destruct (mem _ _); [reflexivity|]. now destruct t. }
    simpl. rewrite initialize_initialized by congruence.
    split; [congruence|].
    unfold add. destruct (truthy new); [|assumption].
    destruct (mem (lower new) (map lower (get_tier t st))) eqn:M; [assumption|].
    apply mem_not_In in M.
    assert (Hfresh : ~ In (lower new) (map lower (all_keywords st))).
    { unfold all_keywords. rewrite !map_app, !in_app_iff.
      simpl in Hg. unfold in_tier_ci in Hg.
      pose proof (Hg high). pose proof (Hg moderate). pose proof (Hg relevant).
      destruct t; simpl in *; intuition congruence. }
    apply (Permutation_NoDup (l := lower (lower new) :: map lower (all_keywords st))).
    + change (lower (lower new) :: map lower (all_keywords st))
        with (map lower (lower new :: all_keywords st)).
      apply Permutation_map.
      destruct st as [f h m r]. unfold all_keywords.
      destruct t; simpl; count_perm x; simpl;
        repeat rewrite count_occ_app; simpl;
        destruct (string_dec (lower new) x); lia.
    + constructor; [now rewrite lower_idem | assumption].
  - split; [discriminate | exact Hn].
Qed.

Lemma run_preserves_invariant (evs : list event) :
  forall st, store_invariant st -> guarded_from st evs ->
    store_invariant (run evs st).
Proof.
  induction evs as [|ev evs IH]; intros st Hinv Hg; simpl; [assumption|].
  destruct Hg as [Hev Hrest].
  apply IH; [now apply step_preserves_invariant | assumption].
Qed.

(** The reset button stores [False] under [keywords_initialized]; the key
    is then still present when the script runs again, and the lists stay. *)
Example reset_keeps_the_lists :
  let st := run [PressMove high_to_mod 0] default_store in
  hd_error (high_keywords st) = Some "schlumberger" /\
  all_keywords (step st PressReset) = all_keywords st.
Proof. split; reflexivity. Qed.

(** C3 (amended): starting from the default vocabulary, after every finite
    sequence of arrow-button moves, resets and [Add] presses whose keyword
    has no case-insensitive match in another tier, each keyword appears
    (case-insensitively) in at most one of the three tiers, and at most
    once in it. *)
Theorem C3_one_tier_per_keyword (evs : list event)
    (Hguard : guarded_from default_store evs) :
  one_tier_each (run evs default_store) /\
  no_repeated_entry (run evs default_store).
Proof.
  apply invariant_one_tier_each, run_preserves_invariant;
    [apply default_store_invariant | assumption].
Qed.

Lemma fresh_for_other_tiers (new : string) (t : tier) (st : session_state) :
  (forall t', mem (lower new) (map lower (get_tier t' st)) = false) ->
  forall t', t' <> t -> ~ in_tier_ci new t' st.
Proof. intros H t' _. apply mem_not_In, H. Qed.

(** The theorem on a session with two moves, a reset and two [Add] presses. *)
Lemma C3_one_tier_per_keyword_witness :
  guarded_from default_store guarded_session /\
  one_tier_each (run guarded_session default_store).
Proof.
  assert (H : guarded_from default_store guarded_session).
  { simpl. repeat split.
    - apply fresh_for_other_tiers. intros []; vm_compute; reflexivity.
    - intros t' N. destruct t'; try congruence;
        apply mem_not_In; vm_compute; reflexivity. }
  split; [exact H|].
  exact (proj1 (C3_one_tier_per_keyword guarded_session H)).
Defined.

(** C3, as stated, fails: [Add] looks only at its own tier, so adding
    ["drilling"] to the moderate tier puts it in two tiers. *)
Lemma C3_add_puts_keyword_in_two_tiers :
  let st := run [PressAdd moderate "drilling"] default_store in
  in_tier_ci "drilling" high st /\ in_tier_ci "drilling" moderate st /\
  ~ one_tier_each st.
Proof.
  assert (H1 : in_tier_ci "drilling" high
                 (run [PressAdd moderate "drilling"] default_store)).
  { apply mem_In. vm_compute. reflexivity. }
  assert (H2 : in_tier_ci "drilling" moderate
                 (run [PressAdd moderate "drilling"] default_store)).
  { apply mem_In. vm_compute. reflexivity. }
  cbv zeta. repeat split; try assumption.
  intros H. specialize (H "drilling" high moderate H1 H2). discriminate H.
Qed.

(* ----------------------------------------------------------------- *)
(** ** analyze_slb_relevance *)

Lemma count_in_entries (l : list string) (text : string) :
  count_in (map lower l) text
  = List.length (filter (fun kw => contains (lower kw) text) l).
Proof.
  unfold count_in. now rewrite py_sum_ones, filter_map_swap, length_map.
Qed.

Lemma high_count_entries (story : Story) (st : session_state) :
  high_count story st = entries_hit high story st.
Proof. apply count_in_entries. Qed.

Lemma moderate_count_entries (story : Story) (st : session_state) :
  moderate_count story st = entries_hit moderate story st.
Proof. apply count_in_entries. Qed.

Lemma relevant_count_entries (story : Story) (st : session_state) :
  relevant_count story st = entries_hit relevant story st.
Proof. apply count_in_entries. Qed.

(** Every listing of a keyword that occurs in the text is counted. *)
Lemma entries_hit_count_occ (t : tier) (story : Story) (st : session_state)
    (kw : string) :
  contains (lower kw) (search_text story) = true ->
  count_occ string_dec (get_tier t st) kw <= entries_hit t story st.
Proof.
  intros H. unfold entries_hit.
  induction (get_tier t st) as [|y l IH]; simpl; [lia|].
  destruct (string_dec y kw) as [->|_].
  - rewrite H. simpl. lia.
  - destruct (contains (lower y) (search_text story)); simpl; lia.
Qed.

(** Without repeated entries the count of a tier is the number of distinct
    keywords of the tier that occur in the text. *)
Lemma distinct_in_count_in (l : list string) (text : string) :
  NoDup l -> distinct_in l text = count_in l text.
Proof.
  intros H. unfold distinct_in, count_in.
  rewrite py_sum_ones, nodup_fixed_point; [reflexivity|].
  now apply NoDup_filter.
Qed.

Lemma leb_iff_le (n m : nat) : (n <=? m) = true <-> n <= m.
Proof. apply Nat.leb_le. Qed.

(** C1 (amended): for every story and every state of the keyword lists,
    with the search text the lowercase ["title description categories"]
    and each tier count the number of the tier's entries that occur in the
    text (an entry counts once however often it occurs in the text, and a
    keyword listed twice counts twice), the result is High when the high
    count is at least 2 or the text contains ["slb"] or ["schlumberger"];
    otherwise Moderate when the high count is at least 1 or the moderate
    count at least 2; otherwise Relevant when the moderate or the relevant
    count is at least 1; otherwise Low.  When no tier lists a keyword twice
    the counts are counts of distinct keywords. *)
Theorem C1_relevance_ladder (story : Story) (st : session_state) :
  let text := search_text story in
  let hc := entries_hit high story st in
  let mc := entries_hit moderate story st in
  let rc := entries_hit relevant story st in
  let named := contains "slb" text = true \/ contains "schlumberger" text = true in
  text = lower (title story) +++ " " +++ lower (description story) +++ " "
         +++ lower (categories story) /\
  (analyze_slb_relevance story st = High <-> 2 <= hc \/ named) /\
  (analyze_slb_relevance story st = Moderate <->
     ~ (2 <= hc \/ named) /\ (1 <= hc \/ 2 <= mc)) /\
  (analyze_slb_relevance story st = Relevant <->
     ~ (2 <= hc \/ named) /\ ~ (1 <= hc \/ 2 <= mc) /\ (1 <= mc \/ 1 <= rc)) /\
  (analyze_slb_relevance story st = Low <->
     ~ (2 <= hc \/ named) /\ ~ (1 <= hc \/ 2 <= mc) /\ ~ (1 <= mc \/ 1 <= rc)) /\
  (no_repeated_entry st ->
     analyze_slb_relevance story st = classify_distinct story st).
Proof.
  intros text hc mc rc named. split.
  { unfold text, search_text, or_empty.
    destruct (title story), (description story), (categories story); reflexivity. }
  assert (Hc : analyze_slb_relevance story st =
               if (2 <=? hc) || contains "slb" text || contains "schlumberger" text
               then High
               else if (1 <=? hc) || (2 <=? mc) then Moderate
               else if (1 <=? mc) || (1 <=? rc) then Relevant
               else Low).
  { unfold analyze_slb_relevance.
    now rewrite high_count_entries, moderate_count_entries, relevant_count_entries. }
  assert (H1 : (2 <=? hc) || contains "slb" text || contains "schlumberger" text = true
               <-> 2 <= hc \/ named).
  { unfold named. rewrite !orb_true_iff, leb_iff_le. tauto. }
  assert (H2 : (1 <=? hc) || (2 <=? mc) = true <-> 1 <= hc \/ 2 <= mc).
  { rewrite orb_true_iff, !leb_iff_le. tauto. }
  assert (H3 : (1 <=? mc) || (1 <=? rc) = true <-> 1 <= mc \/ 1 <= rc).
  { rewrite orb_true_iff, !leb_iff_le. tauto. }
  assert (Hladder :
    (analyze_slb_relevance story st = High <-> 2 <= hc \/ named) /\
    (analyze_slb_relevance story st = Moderate <->
       ~ (2 <= hc \/ named) /\ (1 <= hc \/ 2 <= mc)) /\
    (analyze_slb_relevance story st = Relevant <->
       ~ (2 <= hc \/ named) /\ ~ (1 <= hc \/ 2 <= mc) /\ (1 <= mc \/ 1 <= rc)) /\
    (analyze_slb_relevance story st = Low <->
       ~ (2 <= hc \/ named) /\ ~ (1 <= hc \/ 2 <= mc) /\ ~ (1 <= mc \/ 1 <= rc))).
  { revert H1 H2 H3. rewrite Hc.
    destruct ((2 <=? hc) || contains "slb" text || contains "schlumberger" text);
      destruct ((1 <=? hc) || (2 <=? mc));
      destruct ((1 <=? mc) || (1 <=? rc));
      intros H1 H2 H3; intuition (try discriminate; try congruence). }
  destruct Hladder as (L1 & L2 & L3 & L4).
  split; [exact L1|]. split; [exact L2|]. split; [exact L3|].
  split; [exact L4|].
  intros Hnd. unfold analyze_slb_relevance, classify_distinct.
  unfold high_count, moderate_count, relevant_count.
  rewrite !distinct_in_count_in; [reflexivity | apply (Hnd relevant)
    | apply (Hnd moderate) | apply (Hnd high)].
Qed.

(** The classifier on three small stories: a lone relevant-tier keyword,
    no text at all, and the name of the organisation after ["slb"] has
    been moved out of the high tier. *)
Example analyze_slb_relevance_scenarios :
  analyze_slb_relevance (mkStory "Hydrogen" "" "" "Unknown" "Unknown" "") default_store
    = Relevant /\
  analyze_slb_relevance (mkStory "" "" "" "Unknown" "Unknown" "") default_store
    = Low /\
  analyze_slb_relevance (mkStory "SLB update" "" "" "Unknown" "Unknown" "")
                        (run [PressMove high_to_rel 0] default_store)
    = High.
Proof. vm_compute. repeat split; reflexivity. Qed.

(** C1, as stated, fails: after ["drilling"] has been added to the moderate
    tier and moved up, a text holding ["drilling"] and nothing else holds
    one distinct high-tier keyword and neither name, and is classified
    High instead of Moderate. *)
Lemma C1_repeated_keyword_reaches_High :
  let st := run add_then_move_up default_store in
  let text := search_text drilling_story in
  distinct_in (map lower (high_keywords st)) text = 1 /\
  contains "slb" text = false /\ contains "schlumberger" text = false /\
  classify_distinct drilling_story st = Moderate /\
  analyze_slb_relevance drilling_story st = High.
Proof. vm_compute. repeat split; reflexivity. Qed.

(** C10: the tier counts count entries.  Adding ["drilling"] to the
    moderate tier and moving it up leaves it twice in the high tier, the
    move appending without a look at the destination; a text holding
    ["drilling"] once then has a high count of 2 (1 with the default
    lists) and is classified High (Moderate with the default lists).  In
    general a keyword that occurs in the text adds to the count of a tier
    as many times as the tier lists it. *)
Theorem C10_repeated_entry_counts_twice :
  let st := run add_then_move_up default_store in
  (count_occ string_dec (high_keywords default_store) "drilling" = 1 /\
   count_occ string_dec (high_keywords st) "drilling" = 2) /\
  (high_count drilling_story default_store = 1 /\
   high_count drilling_story st = 2) /\
  (analyze_slb_relevance drilling_story default_store = Moderate /\
   analyze_slb_relevance drilling_story st = High) /\
  (forall story st' kw,
     contains (lower kw) (search_text story) = true ->
     count_occ string_dec (high_keywords st') kw <= high_count story st' /\
     count_occ string_dec (moderate_keywords st') kw <= moderate_count story st' /\
     count_occ string_dec (relevant_keywords st') kw <= relevant_count story st').
Proof.
  cbv zeta. split; [|split; [|split]].
  - vm_compute. split; reflexivity.
  - vm_compute. split; reflexivity.
  - vm_compute. split; reflexivity.
  - intros story st' kw H.
    rewrite high_count_entries, moderate_count_entries, relevant_count_entries.
    repeat split.
    + exact (entries_hit_count_occ high story st' kw H).
    + exact (entries_hit_count_occ moderate story st' kw H).
    + exact (entries_hit_count_occ relevant story st' kw H).
Qed.

(* ----------------------------------------------------------------- *)
(** ** main: the order of the table *)

Lemma filter_perm {A : Type} (f : A -> bool) (l l' : list A) :
  Permutation l l' -> Permutation (filter f l) (filter f l').
Proof.
  induction 1 as [|x l l' _ IH|x y l|l l' l'' _ IH1 _ IH2]; simpl.
  - constructor.
  - destruct (f x); [now constructor | assumption].
  - destruct (f x), (f y); try reflexivity. apply perm_swap.
  - now transitivity (filter f l').
Qed.

Lemma rows_of_above (r : relevance) (k : nat) (df : list ProcessedStory) :
  Forall (fun p => k <= sort_order p) df -> relevance_order r < k ->
  rows_of r df = [].
Proof.
  intros H Hr. unfold rows_of.
  induction H as [|p df Hp _ IH]; simpl; [reflexivity|].
  unfold relevance_eqb at 1. unfold sort_order in Hp.
  destruct (Nat.eqb_spec (relevance_order (Relevance p)) (relevance_order r));
    [lia | exact IH].
Qed.

(** A table in ascending order of the column is made of four blocks. *)
Lemma sorted_blocks (df : list ProcessedStory) :
  StronglySorted (fun a b => sort_order a <= sort_order b) df ->
  df = rows_of High df ++ rows_of Moderate df ++ rows_of Relevant df
       ++ rows_of Low df.
Proof.
  induction 1 as [|a l _ IH Ha]; [reflexivity|].
  pose proof (fun r => rows_of_above r (sort_order a) l Ha) as Hempty.
  unfold rows_of in *. unfold sort_order in Hempty. simpl.
  assert (Hgo : forall r, relevance_order r < relevance_order (Relevance a) ->
                 filter (fun p => relevance_eqb (Relevance p) r) l = [])
    by exact Hempty.
  clear Hempty.
  destruct (Relevance a) eqn:E; simpl in *.
  - now rewrite <- IH.
  - rewrite (Hgo High) in IH |- * by (simpl; lia).
    simpl in *. now rewrite <- IH.
  - rewrite (Hgo High), (Hgo Moderate) in IH |- * by (simpl; lia).
    simpl in *. now rewrite <- IH.
  - rewrite (Hgo High), (Hgo Moderate), (Hgo Relevant) in IH |- * by (simpl; lia).
    simpl in *. now rewrite <- IH.
Qed.

Lemma insert_row_perm (p : ProcessedStory) (df : list ProcessedStory) :
  Permutation (p :: df) (insert_row p df).
Proof.
  induction df as [|q rest IH]; simpl; [reflexivity|].
  destruct (sort_order p <=? sort_order q); [reflexivity|].
  etransitivity; [apply perm_swap | now constructor].
Qed.

Lemma insert_row_sorted (p : ProcessedStory) (df : list ProcessedStory) :
  StronglySorted (fun a b => sort_order a <= sort_order b) df ->
  StronglySorted (fun a b => sort_order a <= sort_order b) (insert_row p df).
Proof.
  induction 1 as [|q rest Hs IH Hq]; simpl.
  - constructor; constructor.
  - destruct (Nat.leb_spec (sort_order p) (sort_order q)) as [L|L].
    + constructor; [now constructor|].
      constructor; [assumption|].
      eapply Forall_impl; [|exact Hq]. simpl. intros. lia.
    + constructor; [assumption|].
      apply (Permutation_Forall (insert_row_perm p rest)).
      constructor; [lia | assumption].
Qed.

(** The contract of [sort_values] can be met for every table. *)
Lemma sort_values_insertion_sort (df : list ProcessedStory) :
  sort_values df (insertion_sort df).
Proof.
  split.
  - induction df as [|p rest IH]; simpl; [constructor|].
    etransitivity; [|apply insert_row_perm]. now constructor.
  - induction df as [|p rest IH]; simpl; [constructor|].
    now apply insert_row_sorted.
Qed.

(** C2 (amended): for every state of the keyword lists, story count and
    parsed feed, the table shown by [main] lists the processed stories of the
    truncated story list by tier rank High < Moderate < Relevant < Low: all
    High rows, then all Moderate, then all Relevant, then all Low rows,
    each tier with exactly the stories assigned to it.  The order of two
    rows of one tier is whatever [sort_values] with its default kind
    yields; document order is not promised. *)
Theorem C2_table_in_tier_blocks (st : session_state) (max_stories : nat)
    (xml_content : xml_result) (df : list ProcessedStory)
    (Htable : main st max_stories xml_content df) :
  let rows := processed_stories st max_stories (parse_rss_content xml_content) in
  df = rows_of High df ++ rows_of Moderate df ++ rows_of Relevant df
       ++ rows_of Low df /\
  (forall r, Permutation (rows_of r rows) (rows_of r df)) /\
  Permutation rows df.
Proof.
  destruct Htable as [_ [HP HS]]. cbv zeta. split; [|split].
  - now apply sorted_blocks.
  - intros r. now apply filter_perm.
  - exact HP.
Qed.

(** The theorem on a feed of five items of four tiers. *)
Lemma C2_table_in_tier_blocks_witness :
  let rows := processed_stories default_store 200 (parse_rss_content mixed_feed) in
  main default_store 200 mixed_feed (insertion_sort rows) /\
  map Relevance rows = [Relevant; High; Low; Moderate; Relevant] /\
  map Title (insertion_sort rows)
    = [ "SLB wins contract"; "Offshore exploration resumes";
        "Hydrogen hub opens"; "Shale output steady"; "Weather report" ] /\
  Permutation rows (insertion_sort rows).
Proof.
  assert (H : main default_store 200 mixed_feed
                (insertion_sort (processed_stories default_store 200
                                   (parse_rss_content mixed_feed)))).
  { split; [discriminate | apply sort_values_insertion_sort]. }
  cbv zeta. split; [exact H|].
  split; [vm_compute; reflexivity|]. split; [vm_compute; reflexivity|].
  exact (proj2 (proj2 (C2_table_in_tier_blocks _ _ _ _ H))).
Defined.

(** C2, as stated, fails: eighteen stories of one tier can come out of
    [sort_values] with rows exchanged, and the code asks for no stable kind. *)
Lemma C2_ties_need_not_keep_document_order :
  let rows := processed_stories default_store 200 (parse_rss_content tied_feed) in
  map Relevance rows = repeat Low 18 /\
  main default_store 200 tied_feed (exchanged rows) /\
  ~ ties_in_document_order rows (exchanged rows).
Proof.
  cbv zeta. split; [vm_compute; reflexivity|]. split.
  - split; [discriminate|]. split.
    + destruct (processed_stories default_store 200 (parse_rss_content tied_feed))
        as [|first rest]; [constructor|].
      simpl. constructor.
      rewrite <- (firstn_skipn 15 rest) at 1.
      apply Permutation_app_tail, Permutation_rev.
    + vm_compute. repeat (constructor; [|repeat constructor]). constructor.
  - intros H. specialize (H Low). vm_compute in H. discriminate H.
Qed.

(* ================================================================= *)
(** * Further properties of the code *)

(** ** Trimming *)

Lemma lstrip_head (s : string) (c : ascii) (r : string) :
  lstrip s = String c r -> is_space c = false.
Proof.
  induction s as [|a s IH]; simpl; [discriminate|].
  destruct (is_space a) eqn:E; [exact IH|].
  intros H. injection H as <- _. exact E.
Qed.

Lemma rstrip_head (s : string) (c : ascii) (r : string) :
  rstrip s = String c r -> exists r0, s = String c r0.
Proof.
  destruct s as [|a s]; simpl; [discriminate|].
  destruct (rstrip s); [destruct (is_space a); [discriminate|]|];
    intros H; injection H as <- _; eauto.
Qed.

Lemma rstrip_last (s : string) (c : ascii) :
  last_char (rstrip s) = Some c -> is_space c = false.
Proof.
  induction s as [|a s IH]; simpl; [discriminate|].
  destruct (rstrip s) as [|b r] eqn:E.
  - destruct (is_space a) eqn:Ea; simpl; [discriminate|].
    intros H. injection H as <-. exact Ea.
  - exact IH.
Qed.

Lemma strip_trimmed (s : string) : trimmed (strip s).
Proof.
  unfold strip. split.
  - intros c r H. destruct (rstrip_head _ _ _ H) as [r0 H0].
    exact (lstrip_head _ _ _ H0).
  - apply rstrip_last.
Qed.

Lemma lstrip_length (s : string) : String.length (lstrip s) <= String.length s.
Proof.
  induction s as [|a s IH]; simpl; [lia|].
  destruct (is_space a); simpl; lia.
Qed.

Lemma rstrip_length (s : string) : String.length (rstrip s) <= String.length s.
Proof.
  induction s as [|a s IH]; simpl; [lia|].
  destruct (rstrip s); [destruct (is_space a)|]; simpl in *; lia.
Qed.

Lemma strip_length (s : string) : String.length (strip s) <= String.length s.
Proof.
  unfold strip. pose proof (rstrip_length (lstrip s)).
  pose proof (lstrip_length s). lia.
Qed.

Lemma strip_blank (s : string) : all_chars is_space s = true -> strip s = "".
Proof.
  unfold strip. induction s as [|a s IH]; simpl; [reflexivity|].
  intros H. apply andb_true_iff in H. destruct H as [Ha Hs].
  rewrite Ha. now apply IH.
Qed.

Lemma stripped_text_or_trimmed (default : string) (elem : option Element) :
  trimmed default -> trimmed (stripped_text_or default elem).
Proof.
  intros H. unfold stripped_text_or. destruct elem as [e|]; [|exact H].
  destruct (text_truthy e); [apply strip_trimmed | exact H].
Qed.

Lemma literal_trimmed (s : string) :
  match s with
  | EmptyString => true
  | String c _ =>
      negb (is_space c) &&
      match last_char s with Some d => negb (is_space d) | None => true end
  end = true ->
  trimmed s.
Proof.
  intros H. split.
  - intros c r ->. apply andb_true_iff in H. destruct H as [H _].
    now apply negb_true_iff.
  - intros d Hd. destruct s as [|c r]; [discriminate|].
    apply andb_true_iff in H. destruct H as [_ H]. rewrite Hd in H.
    now apply negb_true_iff.
Qed.

Lemma concat_head (sep x : string) (xs : list string) (c : ascii) (r : string) :
  x <> "" -> String.concat sep (x :: xs) = String c r ->
  exists r0, x = String c r0.
Proof.
  destruct x as [|a x]; [congruence|]. intros _.
  destruct xs; simpl; intros H; injection H as <- _; eauto.
Qed.

Lemma concat_nonempty (sep : string) (l : list string) :
  l <> [] -> Forall (fun x => x <> "") l -> String.concat sep l <> "".
Proof.
  destruct l as [|x xs]; [congruence|]. intros _ H.
  inversion H as [|? ? Hx _]; subst.
  destruct x; [congruence|]. destruct xs; simpl; discriminate.
Qed.

Lemma concat_last (sep : string) (l : list string) (c : ascii) :
  Forall (fun x => x <> "" /\ trimmed x) l ->
  last_char (String.concat sep l) = Some c -> is_space c = false.
Proof.
  induction l as [|x xs IH]; [discriminate|].
  intros H. inversion H as [|? ? [Hx Hxt] Hxs]; subst.
  destruct xs as [|y ys].
  - simpl. apply Hxt.
  - change (String.concat sep (x :: y :: ys))
      with (x +++ sep +++ String.concat sep (y :: ys)).
    rewrite <- append_assoc, last_char_append.
    + now apply IH.
    + apply concat_nonempty; [discriminate|].
      eapply Forall_impl; [|exact Hxs]. simpl. tauto.
Qed.

Lemma extract_categories_trimmed (item : Element) :
  trimmed (extract_categories item).
Proof.
  unfold extract_categories.
  set (kept := filter _ (findall_children "category" item)).
  assert (H : Forall (fun x => x <> "" /\ trimmed x)
                     (map (fun c => strip (text_string c)) kept)).
  { apply Forall_forall. intros x Hx. apply in_map_iff in Hx.
    destruct Hx as (c & <- & Hc). apply filter_In in Hc.
    destruct Hc as [_ Hc]. apply andb_true_iff in Hc. destruct Hc as [_ Hc].
    split; [|apply strip_trimmed].
    intros E. rewrite E in Hc. discriminate. }
  destruct (map (fun c => strip (text_string c)) kept) as [|x xs] eqn:E.
  - apply literal_trimmed. reflexivity.
  - split.
    + intros c r Hc. inversion H as [|? ? [Hx Hxt] _]; subst.
      destruct (concat_head _ _ _ _ _ Hx Hc) as [r0 ->].
      now apply (proj1 Hxt c r0).
    + intros c. now apply concat_last.
Qed.

(* ----------------------------------------------------------------- *)
(** ** parse_rss_content: the fields of a story *)

(** X1: whatever the feed holds, the title, link, description, author and
    categories of every parsed story have no whitespace at either end. *)
Theorem parsed_fields_are_trimmed (xml_content : xml_result) :
  Forall (fun story =>
            trimmed (title story) /\ trimmed (link story) /\
            trimmed (description story) /\ trimmed (author story) /\
            trimmed (categories story))
         (parse_rss_content xml_content).
Proof.
  destruct xml_content as [root|]; [|constructor].
  simpl. apply Forall_forall. intros story H. apply in_map_iff in H.
  destruct H as (item & <- & _). simpl.
  repeat split;
    try (apply stripped_text_or_trimmed, literal_trimmed; reflexivity);
    apply extract_categories_trimmed.
Qed.

Lemma slice_to_length (n : nat) (s : string) :
  String.length (slice_to n s) = Nat.min n (String.length s).
Proof.
  unfold slice_to. revert n. induction s as [|c r IH]; intros [|n]; simpl;
    try reflexivity.
  now rewrite IH.
Qed.

Lemma date_token_length (mid : ascii -> bool) (m : string) :
  date_token mid m -> String.length m = 10 \/ String.length m = 11.
Proof.
  intros (day & mon & year & -> & Ld & _ & Lm & _ & Ly & _).
  assert (L : forall a b, String.length (a +++ b) = String.length a + String.length b).
  { intros a b. induction a as [|x a IH]; simpl; [reflexivity | now rewrite IH]. }
  rewrite !L. simpl. lia.
Qed.

(** X2: the date field of a story is never empty and never longer than
    eleven characters, whatever the [pubDate] element holds. *)
Theorem date_field_length (item : Element) :
  1 <= String.length (date (story_of_item item)) <= 11.
Proof.
  simpl. unfold extract_date.
  destruct (find_child "pubDate" item) as [e|]; [|simpl; lia].
  unfold text_truthy, text_string. destruct (text e) as [raw|]; [|simpl; lia].
  destruct raw as [|c raw]; [simpl; lia|]. cbn [truthy].
  destruct (re_search_date (String c raw)) as [m|] eqn:E.
  - apply search_date_first_match in E. destruct E as (_ & _ & _ & Tk & _).
    apply date_token_length in Tk. lia.
  - destruct (10 <? String.length (String c raw)) eqn:L.
    + apply Nat.ltb_lt in L. rewrite slice_to_length. lia.
    + apply Nat.ltb_ge in L. simpl in *. lia.
Qed.

(** X3: the categories field is empty exactly when every [category] child
    of the item is blank (no text, or whitespace only). *)
Theorem categories_empty_iff (item : Element) :
  categories (story_of_item item) = "" <->
  forall c, In c (findall_children "category" item) -> strip (text_string c) = "".
Proof.
  simpl. unfold extract_categories.
  set (keep := fun c => text_truthy c && truthy (strip (text_string c))).
  assert (K : forall c, keep c = false <-> strip (text_string c) = "").
  { intros c. unfold keep, text_truthy, text_string.
    destruct (text c) as [[|a raw]|]; simpl; try tauto.
    destruct (strip (String a raw)); simpl; split; congruence. }
  split.
  - intros H c Hc. apply K. destruct (keep c) eqn:Ek; [|reflexivity].
    exfalso.
    assert (Hin : In c (filter keep (findall_children "category" item)))
      by (apply filter_In; auto).
    destruct (map (fun c0 => strip (text_string c0))
                  (filter keep (findall_children "category" item)))
      as [|x xs] eqn:E.
    + apply map_eq_nil in E. rewrite E in Hin. contradiction.
    + revert H. apply concat_nonempty; [discriminate|].
      rewrite <- E. apply Forall_forall. intros y Hy.
      apply in_map_iff in Hy. destruct Hy as (d & <- & Hd).
      apply filter_In in Hd. destruct Hd as [_ Hd].
      intros Z. apply K in Z. congruence.
  - intros H.
    assert (E : filter keep (findall_children "category" item) = []).
    { induction (findall_children "category" item) as [|d l IH]; simpl;
        [reflexivity|].
      rewrite (proj2 (K d)) by (apply H; now left).
      apply IH. intros c Hc. apply H. now right. }
    now rewrite E.
Qed.

(** X4: a [title], [link], [description] or [author] element whose text is
    non-empty but all whitespace gives the empty string, not the default
    of the field (["No title"], ["Unknown"]). *)
Theorem blank_text_gives_empty_field (item e : Element) (raw : string)
    (Htext : text e = Some raw) (Hne : raw <> "")
    (Hblank : all_chars is_space raw = true) :
  (find_child "title" item = Some e -> title (story_of_item item) = "") /\
  (find_child "link" item = Some e -> link (story_of_item item) = "") /\
  (find_child "description" item = Some e ->
   description (story_of_item item) = "") /\
  (find_child "author" item = Some e -> author (story_of_item item) = "").
Proof.
  assert (E : forall default, stripped_text_or default (Some e) = "").
  { intros default. unfold stripped_text_or, text_truthy, text_string.
    rewrite Htext, (truthy_nonempty raw Hne). now apply strip_blank. }
  simpl. repeat split; intros ->; apply E.
Qed.

(** The theorem on the blank title of [padded_item]. *)
Lemma blank_text_gives_empty_field_witness :
  title (story_of_item padded_item) = "" /\
  author (story_of_item padded_item) = "Unknown".
Proof.
  split; [|reflexivity].
  assert (Hne : "   " <> "") by discriminate.
  destruct (blank_text_gives_empty_field padded_item
              (Elem "title" (Some "   ") []) "   " eq_refl Hne eq_refl)
    as [Htitle _].
  apply Htitle. reflexivity.
Defined.

(** The other fields of [padded_item]: blank categories are left out, and
    the date, unlike the other fields, is cut from the untrimmed text. *)
Example story_of_padded_item :
  categories (story_of_item padded_item) = "Drilling, LNG" /\
  date (story_of_item padded_item) = "  2025-06-".
Proof. split; reflexivity. Qed.

(* ----------------------------------------------------------------- *)
(** ** main: the table, its metrics and its filter *)

Lemma sorted_row_count (st : session_state) (max_stories : nat)
    (xml_content : xml_result) (df : list ProcessedStory) :
  main st max_stories xml_content df ->
  List.length df
  = Nat.min max_stories (List.length (parse_rss_content xml_content)).
Proof.
  intros [_ [HP _]].
  rewrite <- (Permutation_length HP). unfold processed_stories.
  now rewrite length_map, length_firstn.
Qed.

Lemma main_insertion_sort (st : session_state) (max_stories : nat)
    (xml_content : xml_result) :
  parse_rss_content xml_content <> [] ->
  main st max_stories xml_content
       (insertion_sort (processed_stories st max_stories
                          (parse_rss_content xml_content))).
Proof. intros H. split; [exact H | apply sort_values_insertion_sort]. Qed.

Lemma relevance_eqb_eq (a b : relevance) : relevance_eqb a b = true <-> a = b.
Proof.
  destruct a, b; unfold relevance_eqb; simpl; split; intros; congruence.
Qed.

Lemma isin_In (sel : list relevance) (p : ProcessedStory) :
  isin sel p = true <-> In (Relevance p) sel.
Proof.
  unfold isin. rewrite existsb_exists. split.
  - intros (r & Hr & E). apply relevance_eqb_eq in E. congruence.
  - intros H. exists (Relevance p). split; [assumption|].
    now apply relevance_eqb_eq.
Qed.

Lemma filtered_df_In (sel : list relevance) (df : list ProcessedStory)
    (p : ProcessedStory) :
  In p (filtered_df sel df) <-> In p df /\ (sel = [] \/ In (Relevance p) sel).
Proof.
  destruct sel as [|r sel]; simpl filtered_df.
  - split; [auto | tauto].
  - rewrite filter_In, isin_In. split.
    + intros [H1 H2]. auto.
    + intros [H1 [H2|H2]]; [discriminate | auto].
Qed.

Lemma filtered_df_length (sel : list relevance) (df : list ProcessedStory) :
  List.length (filtered_df sel df) <= List.length df.
Proof.
  destruct sel as [|r sel]; simpl filtered_df; [lia|].
  induction df as [|p df IH]; [simpl; lia|]. cbn [filter].
  destruct (isin (r :: sel) p); cbn [List.length]; lia.
Qed.

Lemma filtered_df_all (sel : list relevance) (df : list ProcessedStory) :
  sel = [] \/ (forall r, In r sel) -> filtered_df sel df = df.
Proof.
  intros [-> | Hall]; [reflexivity|].
  destruct sel as [|r0 sel]; [reflexivity|]. simpl filtered_df.
  induction df as [|p df IH]; [reflexivity|]. cbn [filter].
  rewrite (proj2 (isin_In (r0 :: sel) p) (Hall _)). now rewrite IH.
Qed.

Lemma show_Table (sel : list relevance) (df rows : list ProcessedStory) :
  Table rows = show sel df <-> rows = filtered_df sel df /\ rows <> [].
Proof.
  unfold show. destruct (filtered_df sel df) as [|row more]; split.
  - discriminate.
  - intros [-> N]. congruence.
  - intros H. injection H as ->. split; [reflexivity | discriminate].
  - intros [-> _]. reflexivity.
Qed.

Lemma show_NoMatch (sel : list relevance) (df : list ProcessedStory) :
  NoMatch = show sel df <-> filtered_df sel df = [].
Proof.
  unfold show. destruct (filtered_df sel df); split;
    try reflexivity; discriminate.
Qed.

Lemma row_of_main (st : session_state) (max_stories : nat)
    (xml_content : xml_result) (df : list ProcessedStory) (p : ProcessedStory) :
  main st max_stories xml_content df ->
  (In p df <->
   exists story, In story (firstn max_stories (parse_rss_content xml_content)) /\
                 p = process st story).
Proof.
  intros [_ [HP _]]. unfold processed_stories in HP. split.
  - intros H. apply (Permutation_in _ (Permutation_sym HP)) in H.
    apply in_map_iff in H. destruct H as (story & <- & Hs). eauto.
  - intros (story & Hs & ->). apply (Permutation_in _ HP).
    now apply in_map.
Qed.

(** X5: a table that [main] shows has at least one row and at most
    min(max_stories, number of parsed stories) rows, the size of the sorted
    DataFrame; it has exactly that many when no level or every level is
    selected. *)
Theorem shown_table_row_count (st : session_state) (max_stories : nat)
    (xml_content : xml_result) (relevance_filter : list relevance)
    (rows : list ProcessedStory)
    (Hshown : main_screen st max_stories xml_content relevance_filter (Table rows)) :
  let n := Nat.min max_stories (List.length (parse_rss_content xml_content)) in
  1 <= List.length rows <= n /\
  (relevance_filter = [] \/ (forall r, In r relevance_filter) ->
   List.length rows = n).
Proof.
  cbv zeta. destruct Hshown as [[_ H]|(df & Hmain & H)]; [discriminate|].
  apply show_Table in H. destruct H as [-> Hne].
  rewrite <- (sorted_row_count _ _ _ _ Hmain).
  pose proof (filtered_df_length relevance_filter df).
  split.
  - split; [|assumption].
    destruct (filtered_df relevance_filter df); [congruence | simpl; lia].
  - intros Hall. now rewrite filtered_df_all.
Qed.

Lemma shown_table_row_count_witness :
  let df := insertion_sort (processed_stories default_store 200
                              (parse_rss_content mixed_feed)) in
  main_screen default_store 200 mixed_feed [Relevant] (Table (filtered_df [Relevant] df)) /\
  List.length df = 5 /\
  1 <= List.length (filtered_df [Relevant] df) <= 5.
Proof.
  assert (H : main_screen default_store 200 mixed_feed [Relevant]
                (Table (filtered_df [Relevant]
                          (insertion_sort (processed_stories default_store 200
                                             (parse_rss_content mixed_feed)))))).
  { right. eexists. split; [apply main_insertion_sort; discriminate|].
    vm_compute. reflexivity. }
  cbv zeta. split; [exact H|]. split; [vm_compute; reflexivity|].
  exact (proj1 (shown_table_row_count _ _ _ _ _ H)).
Defined.

(** X6: what [main] shows below the metrics, for a maximum within the
    slider's range.  The error "No stories found" comes exactly when
    [parse_rss_content] returns nothing, that is on a [ParseError] or when
    no item element stands below the root.  A table comes exactly when one
    of the first max_stories stories has a selected level, or there are
    stories and nothing is selected.  "No stories match" comes exactly
    when there are stories, something is selected, and none of the first
    max_stories stories has a selected level. *)
Theorem screen_of_main (st : session_state) (max_stories : nat)
    (xml_content : xml_result) (relevance_filter : list relevance)
    (Hmax : slider_range max_stories) :
  let stories := parse_rss_content xml_content in
  let selected story :=
    relevance_filter = [] \/ In (analyze_slb_relevance story st) relevance_filter in
  (main_screen st max_stories xml_content relevance_filter NoStories <->
   stories = []) /\
  (stories = [] <->
   xml_content = ParseError \/
   exists root, xml_content = Parsed root /\
                list_sum (map (count_tag "item") (children root)) = 0) /\
  ((exists rows, main_screen st max_stories xml_content relevance_filter (Table rows)) <->
   exists story, In story (firstn max_stories stories) /\ selected story) /\
  (main_screen st max_stories xml_content relevance_filter NoMatch <->
   stories <> [] /\ relevance_filter <> [] /\
   forall story, In story (firstn max_stories stories) ->
                 ~ In (analyze_slb_relevance story st) relevance_filter).
Proof.
  cbv zeta. split; [|split; [|split]].
  - split.
    + intros [[H _]|(df & _ & H)]; [exact H|].
      unfold show in H. destruct (filtered_df relevance_filter df); discriminate.
    + intros H. left. auto.
  - destruct xml_content as [root|].
    + pose proof (parse_rss_content_below_root root) as L. split.
      * intros E. right. exists root. split; [reflexivity|].
        rewrite <- L, E. reflexivity.
      * intros [H|(root' & E & Z)]; [discriminate|]. injection E as <-.
        rewrite <- L in Z.
        destruct (parse_rss_content (Parsed root)); [reflexivity | discriminate].
    + split; [now left | reflexivity].
  - split.
    + intros (rows & [[_ H]|(df & Hmain & H)]); [discriminate|].
      apply show_Table in H. destruct H as [-> Hne].
      destruct (filtered_df relevance_filter df) as [|p more] eqn:E;
        [congruence|].
      assert (Hp : In p (filtered_df relevance_filter df))
        by (rewrite E; now left).
      apply filtered_df_In in Hp. destruct Hp as [Hp Hsel].
      apply (row_of_main _ _ _ _ _ Hmain) in Hp.
      destruct Hp as (story & Hs & ->). exists story. auto.
    + intros (story & Hs & Hsel).
      assert (Hne : parse_rss_content xml_content <> []).
      { intros E. rewrite E, firstn_nil in Hs. contradiction. }
      pose proof (main_insertion_sort st max_stories xml_content Hne) as Hmain.
      set (df := insertion_sort _) in Hmain.
      assert (Hp : In (process st story) (filtered_df relevance_filter df)).
      { apply filtered_df_In. split; [|exact Hsel].
        apply (row_of_main _ _ _ _ _ Hmain). eauto. }
      exists (filtered_df relevance_filter df). right. exists df.
      split; [exact Hmain|]. apply show_Table. split; [reflexivity|].
      intros E. rewrite E in Hp. contradiction.
  - split.
    + intros [[_ H]|(df & Hmain & H)]; [discriminate|].
      apply show_NoMatch in H.
      pose proof (sorted_row_count _ _ _ _ Hmain) as L.
      destruct Hmain as [Hne Hsort]. split; [exact Hne|]. split.
      * intros ->. simpl in H. rewrite H in L.
        destruct (parse_rss_content xml_content); [congruence|].
        unfold slider_range in Hmax. simpl in L. lia.
      * intros story Hs Hin.
        assert (Hp : In (process st story) (filtered_df relevance_filter df)).
        { apply filtered_df_In. split; [|now right].
          apply (row_of_main _ _ _ _ _ (conj Hne Hsort)). eauto. }
        rewrite H in Hp. contradiction.
    + intros (Hne & Hsel & Hnone). right.
      pose proof (main_insertion_sort st max_stories xml_content Hne) as Hmain.
      set (df := insertion_sort _) in *.
      exists df. split; [exact Hmain|]. apply show_NoMatch.
      destruct (filtered_df relevance_filter df) as [|p more] eqn:E;
        [reflexivity|]. exfalso.
      assert (Hp : In p (filtered_df relevance_filter df))
        by (rewrite E; now left).
      apply filtered_df_In in Hp. destruct Hp as [Hp [Hs|Hs]]; [congruence|].
      apply (row_of_main _ _ _ _ _ Hmain) in Hp.
      destruct Hp as (story & Hin & ->). exact (Hnone story Hin Hs).
Qed.

Lemma screen_of_main_witness :
  slider_range 200 /\
  main_screen default_store 200 tied_feed [High; Moderate] NoMatch /\
  main_screen default_store 200 ParseError [] NoStories /\
  exists rows, main_screen default_store 200 mixed_feed [High] (Table rows).
Proof.
  assert (H : slider_range 200) by (unfold slider_range; lia).
  split; [exact H|]. split; [|split].
  - apply (screen_of_main default_store 200 tied_feed [High; Moderate] H).
    split; [discriminate|]. split; [discriminate|].
    intros story Hs. vm_compute in Hs.
    repeat (destruct Hs as [<-|Hs];
            [vm_compute; intros [Z|[Z|[]]]; discriminate Z|]).
    contradiction.
  - apply (screen_of_main default_store 200 ParseError [] H). reflexivity.
  - apply (screen_of_main default_store 200 mixed_feed [High] H).
    exists (mkStory "SLB wins contract" "" "" "Unknown" "Unknown" "").
    split; [vm_compute; tauto | right; vm_compute; tauto].
Defined.

Lemma rows_partition (df : list ProcessedStory) :
  List.length (rows_of High df) + List.length (rows_of Moderate df)
  + List.length (rows_of Relevant df) + List.length (rows_of Low df)
  = List.length df.
Proof.
  unfold rows_of. induction df as [|p df IH]; simpl; [reflexivity|].
  destruct (Relevance p); simpl; lia.
Qed.

(** X7: the metrics of a table are those of the processed stories before
    sorting, and the High, Moderate and Relevant metrics together with the
    number of Low rows add up to Total Stories. *)
Theorem summary_stats_of_table (st : session_state) (max_stories : nat)
    (xml_content : xml_result) (df : list ProcessedStory)
    (Htable : main st max_stories xml_content df) :
  summary_stats df
  = summary_stats (processed_stories st max_stories (parse_rss_content xml_content)) /\
  (let '(total, h, m, r) := summary_stats df in
   h + m + r + List.length (rows_of Low df) = total).
Proof.
  destruct Htable as [_ [HP _]]. split.
  - unfold summary_stats, rows_of.
    rewrite <- (Permutation_length HP).
    rewrite <- !(Permutation_length (filter_perm _ _ _ HP)). reflexivity.
  - unfold summary_stats. apply rows_partition.
Qed.

Lemma summary_stats_of_table_witness :
  summary_stats
    (insertion_sort (processed_stories default_store 200 (parse_rss_content mixed_feed)))
  = (5, 1, 1, 2).
Proof.
  assert (H : main default_store 200 mixed_feed
                (insertion_sort (processed_stories default_store 200
                                   (parse_rss_content mixed_feed)))).
  { split; [discriminate | apply sort_values_insertion_sort]. }
  rewrite (proj1 (summary_stats_of_table _ _ _ _ H)). vm_compute. reflexivity.
Defined.

(** X8: with nothing selected the whole table is shown, exactly as with all
    four levels selected. *)
Theorem empty_filter_shows_everything (relevance_filter : list relevance)
    (df : list ProcessedStory)
    (Hall : forall r, In r relevance_filter) :
  filtered_df relevance_filter df = filtered_df [] df.
Proof.
  destruct relevance_filter as [|r0 sel]; [reflexivity|]. simpl filtered_df.
  induction df as [|p df IH]; [reflexivity|].
  cbn [filter]. rewrite (proj2 (isin_In (r0 :: sel) p) (Hall _)).
  now rewrite IH.
Qed.

Lemma empty_filter_shows_everything_witness :
  let df := insertion_sort (processed_stories default_store 200
                              (parse_rss_content mixed_feed)) in
  filtered_df [High; Moderate; Relevant; Low] df = filtered_df [] df /\
  List.length (filtered_df [] df) = 5.
Proof.
  cbv zeta. split; [|vm_compute; reflexivity].
  apply empty_filter_shows_everything. intros []; simpl; auto.
Defined.

Lemma filter_filter_comm {A : Type} (f g : A -> bool) (l : list A) :
  filter f (filter g l) = filter g (filter f l).
Proof.
  induction l as [|x l IH]; simpl; [reflexivity|].
  destruct (f x) eqn:Ef, (g x) eqn:Eg; simpl; rewrite ?Ef, ?Eg, IH; reflexivity.
Qed.

(** X9: with a non-empty selection the filter keeps the order of the table:
    the rows of a selected level stay as they are and in their order, the
    rows of the other levels are dropped, and a table in tier order stays
    in tier order. *)
Theorem filtered_df_keeps_tier_blocks (relevance_filter : list relevance)
    (df : list ProcessedStory) (Hsel : relevance_filter <> []) :
  (forall r, In r relevance_filter ->
             rows_of r (filtered_df relevance_filter df) = rows_of r df) /\
  (forall r, ~ In r relevance_filter ->
             rows_of r (filtered_df relevance_filter df) = []) /\
  (StronglySorted (fun a b => sort_order a <= sort_order b) df ->
   StronglySorted (fun a b => sort_order a <= sort_order b)
                  (filtered_df relevance_filter df)).
Proof.
  destruct relevance_filter as [|r0 sel]; [congruence|]. simpl filtered_df.
  split; [|split].
  - intros r Hr. unfold rows_of. rewrite filter_filter_comm.
    induction df as [|p df IH]; [reflexivity|]. cbn [filter].
    destruct (relevance_eqb (Relevance p) r) eqn:E; [|exact IH].
    cbn [filter]. apply relevance_eqb_eq in E.
    rewrite (proj2 (isin_In (r0 :: sel) p)) by (rewrite E; exact Hr).
    now rewrite IH.
  - intros r Hr. unfold rows_of. rewrite filter_filter_comm.
    induction df as [|p df IH]; [reflexivity|]. cbn [filter].
    destruct (relevance_eqb (Relevance p) r) eqn:E; [|exact IH].
    cbn [filter]. apply relevance_eqb_eq in E.
    destruct (isin (r0 :: sel) p) eqn:Ei; [|exact IH].
    apply isin_In in Ei. rewrite E in Ei. contradiction.
  - apply StronglySorted_filter.
Qed.

Lemma filtered_df_keeps_tier_blocks_witness :
  let df := insertion_sort (processed_stories default_store 200
                              (parse_rss_content mixed_feed)) in
  map Title (filtered_df [Relevant; High] df)
  = ["SLB wins contract"; "Hydrogen hub opens"; "Shale output steady"] /\
  rows_of Relevant (filtered_df [Relevant; High] df) = rows_of Relevant df.
Proof.
  cbv zeta. split; [vm_compute; reflexivity|].
  apply (filtered_df_keeps_tier_blocks [Relevant; High]);
    [discriminate | simpl; auto].
Defined.

Lemma firstn_subset {A : Type} (n : nat) (l : list A) (x : A) :
  In x (firstn n l) -> In x l.
Proof.
  revert n. induction l as [|y l IH]; intros [|n]; simpl; try tauto.
  intros [H|H]; [now left | right; eauto].
Qed.

(** X10: every row of a table carries its own date in its editorial
    summary, before the closing [" | Upstream"]; the date has between one
    and eleven characters, and title, author, categories and link have no
    whitespace at either end. *)
Theorem table_rows_well_formed (st : session_state) (max_stories : nat)
    (xml_content : xml_result) (df : list ProcessedStory)
    (Htable : main st max_stories xml_content df) :
  Forall (fun p =>
            (exists summary,
                Editorial_Summary p = summary +++ " | " +++ Date p +++ " | Upstream") /\
            1 <= String.length (Date p) <= 11 /\
            trimmed (Title p) /\ trimmed (Author p) /\
            trimmed (Categories p) /\ trimmed (Link p))
         df.
Proof.
  destruct Htable as [_ [HP _]]. apply Forall_forall. intros p Hp.
  apply (Permutation_in _ (Permutation_sym HP)) in Hp.
  unfold processed_stories in Hp. apply in_map_iff in Hp.
  destruct Hp as (story & <- & Hs). apply firstn_subset in Hs.
  pose proof (parsed_fields_are_trimmed xml_content) as T.
  rewrite Forall_forall in T. destruct (T story Hs) as (T1 & T2 & _ & T4 & T5).
  destruct xml_content as [root|]; [|contradiction].
  simpl in Hs. apply in_map_iff in Hs. destruct Hs as (item & E & _).
  simpl. split; [|split].
  - exists (summary_of (description story)). reflexivity.
  - rewrite <- E. apply date_field_length.
  - auto.
Qed.

Lemma table_rows_well_formed_witness :
  Forall (fun p => 1 <= String.length (Date p) <= 11)
         (insertion_sort (processed_stories default_store 200
                            (parse_rss_content mixed_feed))).
Proof.
  assert (H : main default_store 200 mixed_feed
                (insertion_sort (processed_stories default_store 200
                                   (parse_rss_content mixed_feed)))).
  { split; [discriminate | apply sort_values_insertion_sort]. }
  eapply Forall_impl; [|exact (table_rows_well_formed _ _ _ _ H)].
  simpl. tauto.
Defined.

(* ----------------------------------------------------------------- *)
(** ** analyze_slb_relevance: names, order of the lists, edits *)

Lemma prefix_spec (sub s : string) :
  prefix sub s = true <-> exists post, s = sub +++ post.
Proof.
  revert s. induction sub as [|a sub IH]; intros s.
  - destruct s; simpl; split; eauto.
  - destruct s as [|b s]; simpl.
    + split; [discriminate | intros [post H]; discriminate].
    + destruct (Ascii.ascii_dec a b) as [->|N].
      * rewrite IH. split; intros [post H]; exists post; congruence.
      * split; [discriminate | intros [post H]; congruence].
Qed.

(** [sub in s] holds exactly when [s] is some text, [sub], some text. *)
Lemma contains_spec (sub s : string) :
  contains sub s = true <-> exists pre post, s = pre +++ sub +++ post.
Proof.
  induction s as [|c s IH]; cbn [contains]; rewrite orb_true_iff, prefix_spec.
  - split.
    + intros [[post H]|H]; [|discriminate]. exists "", post. exact H.
    + intros (pre & post & H). left. destruct pre; [|discriminate].
      exists post. exact H.
  - rewrite IH. split.
    + intros [[post H]|(pre & post & H)].
      * exists "", post. exact H.
      * exists (String c pre), post. simpl. now rewrite H.
    + intros (pre & post & H). destruct pre as [|a pre].
      * left. exists post. exact H.
      * right. simpl in H. injection H as _ H. eauto.
Qed.

Lemma contains_append (sub a b : string) :
  contains sub a = true \/ contains sub b = true ->
  contains sub (a +++ b) = true.
Proof.
  rewrite !contains_spec. intros [(pre & post & ->)|(pre & post & ->)].
  - exists pre, (post +++ b). now rewrite !append_assoc.
  - exists (a +++ pre), post. now rewrite !append_assoc.
Qed.

Lemma contains_trans (a b c : string) :
  contains a b = true -> contains b c = true -> contains a c = true.
Proof.
  rewrite !contains_spec. intros (p1 & q1 & ->) (p2 & q2 & ->).
  exists (p2 +++ p1), (q1 +++ q2). now rewrite !append_assoc.
Qed.

Lemma or_empty_id (x : string) : or_empty x = x.
Proof. now destruct x. Qed.

Lemma analyze_ladder (story : Story) (st : session_state) :
  analyze_slb_relevance story st
  = ladder (named_in (search_text story))
           (entries_hit high story st) (entries_hit moderate story st)
           (entries_hit relevant story st).
Proof.
  unfold analyze_slb_relevance, ladder, named_in.
  rewrite high_count_entries, moderate_count_entries, relevant_count_entries.
  now rewrite orb_assoc.
Qed.

(** The ladder never gives a lower tier when keywords found in the text are
    added, or shifted towards the high tier. *)
Lemma ladder_majorize (named : bool) (hc mc rc hc' mc' rc' : nat) :
  hc <= hc' -> hc + mc <= hc' + mc' -> hc + mc + rc <= hc' + mc' + rc' ->
  relevance_order (ladder named hc' mc' rc')
  <= relevance_order (ladder named hc mc rc).
Proof.
  intros H1 H2 H3. unfold ladder. destruct named.
  - rewrite !orb_true_r. simpl. lia.
  - rewrite !orb_false_r.
    repeat match goal with
           | |- context [?a <=? ?b] => destruct (Nat.leb_spec a b)
           end; simpl; lia.
Qed.

(** X11: a story whose title, description or categories hold ["slb"] or
    ["schlumberger"] in any mix of upper and lower case is classified High,
    whatever the keyword lists hold. *)
Theorem name_gives_High (story : Story) (st : session_state) (name : string)
    (Hname : name = "slb" \/ name = "schlumberger")
    (Hin : contains name (lower (title story)) = true \/
           contains name (lower (description story)) = true \/
           contains name (lower (categories story)) = true) :
  analyze_slb_relevance story st = High.
Proof.
  assert (H : contains name (search_text story) = true).
  { unfold search_text. rewrite !or_empty_id.
    destruct Hin as [H|[H|H]].
    - apply contains_append. now left.
    - apply contains_append. right. apply contains_append. right.
      apply contains_append. now left.
    - do 4 (apply contains_append; right). exact H. }
  rewrite analyze_ladder. unfold ladder, named_in.
  destruct Hname as [-> | ->]; rewrite H; now rewrite ?orb_true_r.
Qed.

Lemma name_gives_High_witness :
  analyze_slb_relevance
    (mkStory "Rig count" "" "Contract goes to Schlumberger." "Unknown" "Unknown" "")
    fresh_session
  = High.
Proof.
  apply (name_gives_High _ _ "schlumberger"); [now right|].
  right. left. reflexivity.
Defined.

(** X12: the classification depends on which keywords each list holds and
    how often, not on their order: two states whose tiers are
    rearrangements of one another classify every story alike. *)
Theorem order_of_keywords_is_irrelevant (story : Story)
    (st st' : session_state)
    (Hperm : forall t, Permutation (get_tier t st) (get_tier t st')) :
  analyze_slb_relevance story st = analyze_slb_relevance story st'.
Proof.
  rewrite !analyze_ladder. unfold entries_hit.
  now rewrite !(Permutation_length (filter_perm _ _ _ (Hperm _))).
Qed.

Lemma order_of_keywords_is_irrelevant_witness :
  hd_error (high_keywords reordered_store) = Some "schlumberger" /\
  analyze_slb_relevance drilling_story default_store
  = analyze_slb_relevance drilling_story reordered_store.
Proof.
  split; [reflexivity|].
  assert (Hin : In "slb" default_high_keywords) by (apply mem_In; reflexivity).
  apply order_of_keywords_is_irrelevant. intros [].
  - exact (Permutation_sym (remove_append_perm "slb" default_high_keywords Hin)).
  - apply Permutation_refl.
  - apply Permutation_refl.
Defined.

Lemma get_tier_add (t t' : tier) (new : string) (st : session_state) :
  get_tier t' (add t new st) = get_tier t' st \/
  get_tier t' (add t new st) = get_tier t' st ++ [lower new].
Proof.
  unfold add. destruct (truthy new); [|now left].
  destruct (mem _ _); [now left|].
  destruct st as [f h m r]. destruct t, t'; simpl; auto.
Qed.

Lemma entries_hit_add (t t' : tier) (new : string) (story : Story)
    (st : session_state) :
  entries_hit t' story st <= entries_hit t' story (add t new st).
Proof.
  unfold entries_hit. destruct (get_tier_add t t' new st) as [-> | ->]; [lia|].
  rewrite filter_app, length_app. lia.
Qed.

(** X13: adding a keyword to any tier never moves a story to a lower
    tier. *)
Theorem add_never_lowers_relevance (story : Story) (t : tier) (new : string)
    (st : session_state) :
  relevance_order (analyze_slb_relevance story (add t new st))
  <= relevance_order (analyze_slb_relevance story st).
Proof.
  rewrite !analyze_ladder.
  pose proof (entries_hit_add t high new story st).
  pose proof (entries_hit_add t moderate new story st).
  pose proof (entries_hit_add t relevant new story st).
  apply ladder_majorize; lia.
Qed.

Lemma filter_remove_first_length (f : string -> bool) (x : string)
    (l : list string) :
  In x l ->
  List.length (filter f (remove_first x l)) + (if f x then 1 else 0)
  = List.length (filter f l).
Proof.
  induction l as [|y l IH]; simpl; [tauto|]. intros H.
  destruct (String.eqb_spec y x) as [->|N].
  - destruct (f x); simpl; lia.
  - destruct H as [H|H]; [congruence|]. specialize (IH H).
    simpl. destruct (f y); simpl; lia.
Qed.

(** What an arrow button does to the three counts of a story. *)
Lemma entries_hit_press_move (story : Story) (b : move_button) (i : nat)
    (st : session_state) (keyword : string) :
  nth_error (get_tier (source b) st) i = Some keyword ->
  let st' := state_of (keyword_manager (PressMove b i) st) in
  entries_hit (source b) story st' + hit story keyword
    = entries_hit (source b) story st /\
  entries_hit (destination b) story st'
    = entries_hit (destination b) story st + hit story keyword /\
  (forall t, t <> source b -> t <> destination b ->
             entries_hit t story st' = entries_hit t story st).
Proof.
  intros E. cbv zeta. simpl keyword_manager. rewrite E.
  apply nth_error_In in E. pose proof E as Hmem. apply mem_In in Hmem.
  pose proof (filter_remove_first_length
                (fun kw => contains (lower kw) (search_text story))
                keyword _ E) as F.
  unfold hit, entries_hit.
  destruct st as [f h m r].
  destruct b; simpl in *; unfold move; simpl; rewrite Hmem; simpl;
    rewrite filter_app, length_app; simpl;
    (split; [exact F|]);
    (split; [destruct (contains (lower keyword) (search_text story)); reflexivity|]);
    intros [] N1 N2; simpl; congruence.
Qed.

(** X14: pressing an arrow that moves a keyword to a tier of higher rank
    never lowers the tier of a story, and pressing one that moves it to a
    tier of lower rank never raises it. *)
Theorem promotion_never_lowers_relevance (story : Story) (b : move_button)
    (i : nat) (st : session_state) :
  let st' := state_of (keyword_manager (PressMove b i) st) in
  (promotion b = true ->
   relevance_order (analyze_slb_relevance story st')
   <= relevance_order (analyze_slb_relevance story st)) /\
  (promotion b = false ->
   relevance_order (analyze_slb_relevance story st)
   <= relevance_order (analyze_slb_relevance story st')).
Proof.
  cbv zeta.
  destruct (nth_error (get_tier (source b) st) i) as [keyword|] eqn:E.
  - pose proof (entries_hit_press_move story b i st keyword E) as H.
    cbv zeta in H. rewrite !analyze_ladder.
    set (st' := state_of (keyword_manager (PressMove b i) st)) in *.
    destruct H as (Hs & Hd & Ho).
    assert (Hhit : hit story keyword <= 1)
      by (unfold hit; destruct (contains _ _); lia).
    destruct b; cbn [source destination promotion] in *;
      (split; intros P; [|]; try discriminate P;
       apply ladder_majorize;
       try (rewrite (Ho high) by discriminate);
       try (rewrite (Ho moderate) by discriminate);
       try (rewrite (Ho relevant) by discriminate); lia).
  - simpl keyword_manager. rewrite E. simpl. split; intros _; lia.
Qed.

Lemma filter_two (f : string -> bool) (x y : string) (l : list string) :
  In x l -> In y l -> x <> y -> f x = true -> f y = true ->
  2 <= List.length (filter f l).
Proof.
  intros Hx Hy N Fx Fy.
  assert (G : forall z, In z l -> f z = true -> 1 <= List.length (filter f l)).
  { intros z Hz Fz. assert (Hin : In z (filter f l)) by (apply filter_In; auto).
    destruct (filter f l); [contradiction | simpl; lia]. }
  induction l as [|a l IH]; [contradiction|]. simpl.
  destruct Hx as [->|Hx], Hy as [->|Hy]; try congruence.
  - rewrite Fx. simpl.
    assert (1 <= List.length (filter f l)); [|lia].
    assert (Hin : In y (filter f l)) by (apply filter_In; auto).
    destruct (filter f l); [contradiction | simpl; lia].
  - rewrite Fy. simpl.
    assert (1 <= List.length (filter f l)); [|lia].
    assert (Hin : In x (filter f l)) by (apply filter_In; auto).
    destruct (filter f l); [contradiction | simpl; lia].
  - assert (2 <= List.length (filter f l)).
    { apply IH; auto. intros z Hz Fz.
      assert (Hin : In z (filter f l)) by (apply filter_In; auto).
      destruct (filter f l); [contradiction | simpl; lia]. }
    destruct (f a); simpl; lia.
Qed.

(** X15: matching is by substring, so a high-tier keyword that holds
    another high-tier keyword counts for two: a story whose text holds the
    longer one is classified High on that alone. *)
Theorem nested_keywords_give_High (story : Story) (st : session_state)
    (inner outer : string)
    (Hinner : In inner (high_keywords st)) (Houter : In outer (high_keywords st))
    (Hdiff : inner <> outer)
    (Hnested : contains (lower inner) (lower outer) = true)
    (Htext : contains (lower outer) (search_text story) = true) :
  analyze_slb_relevance story st = High.
Proof.
  rewrite analyze_ladder.
  assert (H : 2 <= entries_hit high story st).
  { unfold entries_hit. simpl get_tier.
    apply (filter_two _ inner outer); auto.
    now apply (contains_trans _ (lower outer)). }
  unfold ladder. apply Nat.leb_le in H. now rewrite H.
Qed.

Lemma nested_keywords_give_High_witness :
  analyze_slb_relevance
    (mkStory "Measurement while drilling tools" "" "" "Unknown" "Unknown" "")
    default_store
  = High.
Proof.
  apply (nested_keywords_give_High _ _ "drilling" "measurement while drilling");
    try (apply mem_In; reflexivity); try reflexivity.
  discriminate.
Defined.

(* ----------------------------------------------------------------- *)
(** ** create_editorial_summary: how long a summary can get *)

Lemma re_split_from_cons (s : string) :
  forall cur in_run, exists piece rest, re_split_from cur in_run s = piece :: rest.
Proof.
  induction s as [|c r IH]; intros cur in_run; simpl; [eauto|].
  destruct (is_terminal c); [destruct in_run|]; eauto.
Qed.

Lemma re_split_from_inner_nonempty (s : string) :
  forall cur in_run, in_run = true \/ cur <> "" ->
    inner_nonempty (re_split_from cur in_run s).
Proof.
  induction s as [|c r IH]; intros cur in_run H; simpl; [exact I|].
  destruct (is_terminal c).
  - destruct in_run; [apply IH; now left|].
    destruct H as [H|H]; [discriminate|].
    destruct (re_split_from_cons r "" true) as (piece & rest & E).
    pose proof (IH "" true (or_introl eq_refl)) as G. rewrite E in G |- *.
    split; assumption.
  - apply IH. right. destruct cur; discriminate.
Qed.

Lemma inner_nonempty_count (l : list string) :
  inner_nonempty l ->
  forall k, k <= List.length l -> k <= total_length (firstn k l) + 1.
Proof.
  unfold total_length.
  induction l as [|x l IH]; intros H k Hk; simpl in Hk; [lia|].
  destruct k as [|k]; [lia|]. simpl.
  destruct l as [|y l].
  - simpl in Hk. destruct k; simpl; lia.
  - destruct H as [Hx Hl]. specialize (IH Hl k).
    assert (1 <= String.length x) by (destruct x; [congruence | simpl; lia]).
    simpl in Hk, IH |- *. lia.
Qed.

(** Between two runs of ['.'], ['!'], ['?'] there is at least one character:
    a prefix of [k] pieces holds at least [k - 2] characters. *)
Lemma re_split_count (s : string) (k : nat) :
  k <= List.length (re_split s) ->
  k <= total_length (firstn k (re_split s)) + 2.
Proof.
  unfold re_split. destruct s as [|c r]; simpl.
  - intros H. destruct k as [|[|k]]; simpl in *; lia.
  - destruct (is_terminal c).
    + intros H. destruct k as [|k]; [lia|]. simpl in H.
      pose proof (inner_nonempty_count _
                    (re_split_from_inner_nonempty r "" true (or_introl eq_refl))
                    k (le_S_n _ _ H)) as G.
      simpl. unfold total_length in *. simpl. lia.
    + intros H.
      assert (N : String c "" <> "") by discriminate.
      pose proof (inner_nonempty_count _
                    (re_split_from_inner_nonempty r (String c "") false (or_intror N))
                    k H) as G.
      lia.
Qed.

Lemma string_length_append (a b : string) :
  String.length (a +++ b) = String.length a + String.length b.
Proof. induction a as [|x a IH]; simpl; [reflexivity | now rewrite IH]. Qed.

Lemma concat_strip_length (l : list string) :
  l <> [] ->
  String.length (String.concat ". " (map strip l)) + 2
  <= total_length l + 2 * List.length l.
Proof.
  unfold total_length.
  induction l as [|x l IH]; [congruence|]. intros _.
  pose proof (strip_length x).
  destruct l as [|y l].
  - simpl. lia.
  - change (String.concat ". " (map strip (x :: y :: l)))
      with (strip x +++ ". " +++ String.concat ". " (map strip (y :: l))).
    rewrite !string_length_append.
    assert (N : y :: l <> []) by discriminate. specialize (IH N).
    simpl in IH |- *. lia.
Qed.

Lemma ensure_terminal_length (s : string) :
  String.length (ensure_terminal s) <= String.length s + 1.
Proof.
  unfold ensure_terminal. destruct (endswith_terminal s); [lia|].
  rewrite string_length_append. simpl. lia.
Qed.

(** X16: the summary part is bounded: at most one character longer than a
    description of up to 300 characters, and never longer than 753
    characters; with the date of a parsed item the whole editorial summary
    has at most 778 characters. *)
Theorem summary_length_bound (item : Element) (desc : string) :
  (String.length desc <= 300 ->
   String.length (summary_of desc) <= String.length desc + 1) /\
  String.length (summary_of desc) <= 753 /\
  String.length (create_editorial_summary (story_of_item item)) <= 778.
Proof.
  assert (B : forall d, String.length (summary_of d) <= 753 /\
                        (String.length d <= 300 ->
                         String.length (summary_of d) <= String.length d + 1)).
  { intros d. unfold summary_of.
    destruct (300 <? String.length d) eqn:L.
    - apply Nat.ltb_lt in L. split; [|lia].
      destruct (accumulate_spec (re_split d) 0 [] (Nat.le_0_l 250))
        as (k & Hk & -> & Hfit & _).
      pose proof (re_split_count d k Hk) as Hc. simpl app.
      pose proof (ensure_terminal_length
                    (String.concat ". " (map strip (firstn k (re_split d))))) as He.
      destruct (firstn k (re_split d)) as [|x xs] eqn:E.
      + simpl in He |- *. lia.
      + assert (N : x :: xs <> []) by discriminate.
        pose proof (concat_strip_length _ N) as Hl.
        assert (Hlen : List.length (x :: xs) <= k)
          by (rewrite <- E; apply firstn_le_length).
        simpl in Hfit. lia.
    - apply Nat.ltb_ge in L.
      pose proof (ensure_terminal_length (strip d)).
      pose proof (strip_length d). split; intros; lia. }
  split; [apply B|]. split; [apply B|].
  unfold create_editorial_summary. rewrite !string_length_append.
  pose proof (proj1 (B (description (story_of_item item)))).
  pose proof (date_field_length item). simpl String.length in *. lia.
Qed.

(** The bound of 753 is reached. *)
Example summary_of_dotted_description :
  String.length dotted_description = 501 /\
  String.length (summary_of dotted_description) = 753.
Proof. vm_compute. split; reflexivity. Qed.

(* ----------------------------------------------------------------- *)
(** ** keyword_manager: what the buttons keep and change *)

Lemma lower_nonempty (s : string) : truthy s = true -> lower s <> "".
Proof. destruct s; simpl; [discriminate | discriminate]. Qed.

Lemma normalized_default : normalized default_store.
Proof.
  unfold normalized. apply Forall_forall. intros k Hk.
  assert (E : forallb (fun k => String.eqb (lower k) k && truthy k)
                      (all_keywords default_store) = true)
    by (vm_compute; reflexivity).
  rewrite forallb_forall in E. specialize (E k Hk).
  apply andb_true_iff in E. destruct E as [E1 E2].
  apply String.eqb_eq in E1. split; [exact E1|].
  intros ->. discriminate.
Qed.

Lemma add_keeps_initialized (t : tier) (new : string) (st : session_state) :
  keywords_initialized (add t new st) = keywords_initialized st.
Proof.
  unfold add. destruct (truthy new); [|reflexivity].
  destruct (mem _ _); [reflexivity|]. now destruct t.
Qed.

Lemma add_normalized (t : tier) (new : string) (st : session_state) :
  normalized st -> normalized (add t new st).
Proof.
  intros H. unfold add. destruct (truthy new) eqn:Tn; [|exact H].
  destruct (mem _ _); [exact H|].
  assert (N : lower (lower new) = lower new /\ lower new <> "")
    by (split; [apply lower_idem | now apply lower_nonempty]).
  unfold normalized, all_keywords in *. destruct st as [f h m r].
  destruct t; simpl in *; rewrite !Forall_app in *;
    repeat split; try tauto; repeat constructor; tauto.
Qed.

Lemma step_initialized_normalized (st : session_state) (ev : event) :
  keywords_initialized st <> None -> normalized st ->
  keywords_initialized (step st ev) <> None /\ normalized (step st ev).
Proof.
  intros Hi Hn. unfold step. destruct ev as [b i|t new|].
  - destruct (press_move_perm b i st) as [Hk HP].
    rewrite initialize_initialized by congruence.
    split; [congruence|]. unfold normalized.
    apply (Permutation_Forall (Permutation_sym HP)). exact Hn.
  - simpl. rewrite initialize_initialized
      by (rewrite add_keeps_initialized; exact Hi).
    split; [now rewrite add_keeps_initialized | now apply add_normalized].
  - simpl. split; [discriminate | exact Hn].
Qed.

Lemma run_initialized_normalized (evs : list event) :
  forall st, keywords_initialized st <> None -> normalized st ->
    keywords_initialized (run evs st) <> None /\ normalized (run evs st).
Proof.
  induction evs as [|ev evs IH]; intros st Hi Hn; simpl; [auto|].
  destruct (step_initialized_normalized st ev Hi Hn). now apply IH.
Qed.

(** X17: whatever is pressed or typed in the sidebar, every stored keyword
    is lowercase and non-empty; lowercasing the lists, as the [Add] test
    and the classifier do, leaves them as they are. *)
Theorem stored_keywords_are_lowercase (evs : list event) :
  normalized (run evs default_store) /\
  forall t, map lower (get_tier t (run evs default_store))
            = get_tier t (run evs default_store).
Proof.
  assert (H : normalized (run evs default_store)).
  { apply run_initialized_normalized;
      [discriminate | apply normalized_default]. }
  split; [exact H|]. intros t.
  assert (G : Forall (fun k => lower k = k) (get_tier t (run evs default_store))).
  { unfold normalized, all_keywords in H. rewrite !Forall_app in H.
    destruct H as (Hh & Hm & Hr).
    destruct t; simpl; eapply Forall_impl; try eassumption; simpl; tauto. }
  induction G as [|k l Hk _ IH]; simpl; [reflexivity|].
  now rewrite Hk, IH.
Qed.

Lemma mem_map_lower_last (x : string) (l : list string) :
  mem (lower x) (map lower (l ++ [lower x])) = true.
Proof.
  apply mem_In. rewrite map_app, in_app_iff. right. simpl.
  left. apply lower_idem.
Qed.

(** X18: [Add] is idempotent, and after [Add] with some text typed the
    keyword has a match in its tier, which has grown by one entry when the
    keyword had no match there and not at all otherwise; the other two
    tiers are left as they are. *)
Theorem add_is_idempotent (t : tier) (new : string) (st : session_state) :
  add t new (add t new st) = add t new st /\
  (truthy new = true -> in_tier_ci new t (add t new st)) /\
  List.length (get_tier t (add t new st))
  = List.length (get_tier t st)
    + (if truthy new && negb (mem (lower new) (map lower (get_tier t st)))
       then 1 else 0) /\
  (forall t', t' <> t -> get_tier t' (add t new st) = get_tier t' st).
Proof.
  unfold in_tier_ci.
  destruct (truthy new) eqn:Tn.
  - destruct (mem (lower new) (map lower (get_tier t st))) eqn:M.
    + assert (E : add t new st = st) by (unfold add; now rewrite Tn, M).
      rewrite !E. split; [reflexivity|]. split; [|split].
      * intros _. now apply mem_In.
      * simpl. lia.
      * reflexivity.
    + assert (E : add t new st
                  = set_tier t (get_tier t st ++ [lower new]) st)
        by (unfold add; now rewrite Tn, M).
      assert (G : get_tier t (add t new st) = get_tier t st ++ [lower new]).
      { rewrite E. destruct st as [f h m r]. now destruct t. }
      split; [|split; [|split]].
      * unfold add at 1. rewrite Tn, G, mem_map_lower_last. reflexivity.
      * intros _. rewrite G. apply mem_In, mem_map_lower_last.
      * rewrite G, length_app. simpl. lia.
      * intros t' N. rewrite E. destruct st as [f h m r].
        destruct t, t'; simpl; congruence.
  - assert (E : add t new st = st) by (unfold add; now rewrite Tn).
    rewrite !E. split; [reflexivity|]. split; [discriminate|].
    split; [simpl; lia | reflexivity].
Qed.

Lemma remove_first_length (x : string) (l : list string) :
  In x l -> List.length (remove_first x l) + 1 = List.length l.
Proof.
  induction l as [|y l IH]; simpl; [tauto|]. intros H.
  destruct (String.eqb_spec y x) as [->|N]; [lia|].
  destruct H as [H|H]; [congruence|]. simpl. specialize (IH H). lia.
Qed.

Lemma remove_first_at (l : list string) :
  forall i x, NoDup l -> nth_error l i = Some x ->
    remove_first x l = firstn i l ++ skipn (S i) l.
Proof.
  induction l as [|y l IH]; intros i x Hnd E; [now destruct i|].
  inversion Hnd as [|? ? Hy Hl]; subst.
  destruct i as [|i]; simpl in E |- *.
  - injection E as ->. now rewrite String.eqb_refl.
  - destruct (String.eqb_spec y x) as [->|N].
    + exfalso. apply Hy. eapply nth_error_In. eassumption.
    + f_equal. now apply IH.
Qed.

(** X19: pressing the arrow of a row that is drawn takes one entry from the
    tier of the row and appends the keyword of the row to the end of the
    destination tier, leaving the third tier alone, so the three counts of
    the sidebar keep their sum; when the tier of the row lists no keyword
    twice, the entry taken is the one of the row itself. *)
Theorem arrow_moves_one_keyword (b : move_button) (i : nat)
    (st : session_state) (keyword : string)
    (Hrow : nth_error (get_tier (source b) st) i = Some keyword) :
  let st' := state_of (keyword_manager (PressMove b i) st) in
  keyword_manager (PressMove b i) st = Done st' /\
  List.length (get_tier (source b) st') + 1
    = List.length (get_tier (source b) st) /\
  get_tier (destination b) st' = get_tier (destination b) st ++ [keyword] /\
  (forall t, t <> source b -> t <> destination b ->
             get_tier t st' = get_tier t st) /\
  (let '(h, m, r) := keyword_counts st in
   let '(h', m', r') := keyword_counts st' in h' + m' + r' = h + m + r) /\
  (NoDup (get_tier (source b) st) ->
   get_tier (source b) st'
   = firstn i (get_tier (source b) st) ++ skipn (S i) (get_tier (source b) st)).
Proof.
  cbv zeta. simpl keyword_manager. rewrite Hrow.
  pose proof (nth_error_In _ _ Hrow) as Hin.
  pose proof Hin as Hmem. apply mem_In in Hmem.
  pose proof (remove_first_length keyword _ Hin) as Hlen.
  pose proof (fun Hnd => remove_first_at (get_tier (source b) st) i keyword
                                          Hnd Hrow) as Hat.
  destruct st as [f h m r]. unfold keyword_counts.
  destruct b; simpl in *; unfold move; simpl; rewrite Hmem; simpl;
    (split; [reflexivity|]); (split; [exact Hlen|]);
    (split; [reflexivity|]);
    (split; [intros [] N1 N2; simpl; congruence|]);
    (split; [rewrite length_app; simpl; lia|]);
    exact Hat.
Qed.

Lemma arrow_moves_one_keyword_witness :
  let st' := state_of (keyword_manager (PressMove high_to_rel 5) default_store) in
  nth_error (get_tier high default_store) 5 = Some "drilling" /\
  keyword_counts default_store = (32, 25, 13) /\
  keyword_counts st' = (31, 25, 14) /\
  get_tier relevant st' = get_tier relevant default_store ++ ["drilling"].
Proof.
  assert (H : nth_error (get_tier (source high_to_rel) default_store) 5
              = Some "drilling") by reflexivity.
  destruct (arrow_moves_one_keyword high_to_rel 5 default_store "drilling" H)
    as (_ & _ & Hd & _).
  cbv zeta. split; [exact H|]. split; [reflexivity|]. split; [reflexivity|].
  exact Hd.
Defined.

Lemma step_same_lists (st st' : session_state) (ev : event) :
  same_lists st st' -> same_lists (step st ev) (step st' ev).
Proof.
  intros (Hi & Hi' & Hl).
  pose proof (Hl high) as Eh. pose proof (Hl moderate) as Em.
  pose proof (Hl relevant) as Er.
  destruct st as [f h m r], st' as [f' h' m' r']. simpl in *. subst h' m' r'.
  destruct f as [f|]; [|congruence]. destruct f' as [f'|]; [|congruence].
  unfold step. destruct ev as [b i|t new|].
  - simpl keyword_manager.
    destruct b; simpl;
      match goal with
      | |- context [nth_error ?l i] => destruct (nth_error l i) as [kw|]
      end;
      unfold move; simpl;
      try match goal with
          | |- context [mem ?x ?l] => destruct (mem x l)
          end;
      simpl; (split; [discriminate|]); (split; [discriminate|]);
      intros []; reflexivity.
  - simpl keyword_manager. unfold add.
    destruct (truthy new);
      [|simpl; (split; [discriminate|]); (split; [discriminate|]);
        intros []; reflexivity].
    destruct t; simpl;
      match goal with
      | |- context [mem ?x ?l] => destruct (mem x l)
      end;
      simpl; (split; [discriminate|]); (split; [discriminate|]);
      intros []; reflexivity.
  - simpl. (split; [discriminate|]); (split; [discriminate|]).
    intros []; reflexivity.
Qed.

Lemma run_same_lists (evs : list event) :
  forall st st', same_lists st st' -> same_lists (run evs st) (run evs st').
Proof.
  induction evs as [|ev evs IH]; intros st st' H; simpl; [exact H|].
  apply IH. now apply step_same_lists.
Qed.

(** X20: the reset button does not bring the default keywords back: at any
    point of a session, pressing it leaves the three lists as they are,
    now and for everything that is pressed afterwards. *)
Theorem reset_leaves_the_lists (before after : list event) (t : tier) :
  get_tier t (run (before ++ PressReset :: after) default_store)
  = get_tier t (run (before ++ after) default_store).
Proof.
  unfold run. rewrite !fold_left_app. simpl fold_left.
  fold (run before default_store).
  set (st := run before default_store).
  assert (Hi : keywords_initialized st <> None).
  { apply run_initialized_normalized;
      [discriminate | apply normalized_default]. }
  assert (H : same_lists (step st PressReset) st).
  { split; [discriminate|]. split; [exact Hi|]. intros []; reflexivity. }
  apply (run_same_lists after) in H. destruct H as (_ & _ & H). apply H.
Qed.

(** X21: no press in the sidebar ends in an error, in any state of the
    lists: [list.remove] always finds its keyword, because the keyword
    moved is read from the tier of the pressed row. *)
Theorem keyword_manager_never_raises (ev : event) (st : session_state) :
  exists st', keyword_manager ev st = Done st'.
Proof.
  destruct ev as [b i|t new|]; simpl; try (eexists; reflexivity).
  destruct (nth_error (get_tier (source b) st) i) as [kw|] eqn:E;
    [|eexists; reflexivity].
  apply nth_error_In, mem_In in E.
  destruct st as [f h m r].
  destruct b; simpl in E; unfold move; simpl; rewrite E;
    eexists; reflexivity.
Qed.
